(** * BlockBook backend coordinator (src/js/backend/BlockBook.js)

    A shallow embedding of the [BlockBook] class: the object's fields, the
    listeners of [blockchain.errors], the discovery sessions handed out by
    the discovery engine, and a trace of the calls that leave the
    coordinator (backend requests, engine requests, caller callbacks).

    The backend connection and the discovery engine belong to the hd-wallet
    package; they appear here through the interface the class uses. *)

From stdpp Require Import base list strings sets.
From Stdlib.Strings Require Import Byte.
From Stdlib Require Import NArith Ascii.

Set Default Goal Selector "!".
Local Open Scope string_scope.
Local Open Scope list_scope.

(** ** Errors, results and promises *)

(** A JavaScript [Error] carries its message. *)
Record Error := mkError { message : string }.

#[global] Instance Error_eq_dec : EqDecision Error.
Proof. solve_decision. Defined.

(** The outcome of a call: a value, or a thrown error (for a promise:
    fulfilled or rejected). *)
Inductive Result (A : Type) : Type :=
| Ok (a : A)
| Err (e : Error).
Arguments Ok {A} a.
Arguments Err {A} e.

(** A promise as the event loop sees it once settled: the tick at which it
    settles and its outcome. The tick only matters where promises race
    ([Promise.all]). *)
Record Promise (A : Type) := mkPromise { settledAt : nat; outcome : Result A }.
Arguments mkPromise {A} settledAt outcome.
Arguments settledAt {A} p.
Arguments outcome {A} p.

Definition is_rejected {A} (p : Promise A) : Prop :=
  match outcome p with Err _ => True | Ok _ => False end.

(** [!!x] for an optional string: [null], [undefined] and the empty string
    are falsy. *)
Definition truthy (s : option string) : bool :=
  match s with
  | Some (String _ _) => true
  | Some EmptyString | None => false
  end.

(** [Buffer.prototype.toString('hex')]: two lower-case digits per byte. *)
Definition hex_digit (n : N) : ascii :=
  match String.get (N.to_nat n) "0123456789abcdef" with
  | Some c => c
  | None => "0"%char
  end.

Fixpoint Buffer_toString_hex (bytes : list byte) : string :=
  match bytes with
  | [] => EmptyString
  | b :: rest =>
      let n := Byte.to_N b in
      String (hex_digit (n / 16)) (String (hex_digit (n mod 16)) (Buffer_toString_hex rest))
  end.

Inductive SegwitMode := p2sh | off.

(** The listeners attached to [blockchain.errors.values]: the class attaches
    three kinds of closures. *)
Inductive Handler :=
| setError_bound                  (* this._setError.bind(this) *)
| dispose_discovery (sid : nat)   (* (e) => { discovery.dispose(e); } *)
| dispose_monitor (mid : nat).    (* () => { res.dispose(); } *)

#[global] Instance Handler_eq_dec : EqDecision Handler.
Proof. solve_decision. Defined.

Section Coordinator.

(** Payloads the coordinator only passes through. *)
Context {AccountInfo AccountLoadStatus Network NetworkInfo Transaction : Type}.

(** The fields of a [CoinInfo] that the class or the network table read. *)
Record CoinInfo := mkCoinInfo {
  network : Network;
  hashGenesisBlock : string;
  segwit : bool;
  cashAddrPrefix : option string;
  zcash : bool;
}.

Record Options := mkOptions {
  urls : list string;
  coinInfo : CoinInfo;
}.

(** What [blockchain.lookupTransaction] resolves to: [tx.hex], [tx.zcash]. *)
Record RawTransaction := mkRawTransaction { hex : string; tx_zcash : bool }.

(** What [blockchain.lookupSyncStatus] resolves to. *)
Record SyncStatus := mkSyncStatus { height : N }.

(** The calls that leave the coordinator: objects it creates, requests to
    the backend connection and to the discovery engine, and the caller's
    callbacks. *)
Inductive Effect :=
| new_FastXpubWorker
| new_BitcoreBlockchain (endpoints : list string)
| httpRequest_FastXpubWasm
| new_WorkerDiscovery
| Socket_send_getInfo
| Blockchain_lookupBlockHash (h : nat)
| Blockchain_lookupTransaction (id : string)
| Blockchain_lookupSyncStatus
| Blockchain_sendTransaction (txHex : string)
| Discovery_discoverAccount (data : option AccountInfo) (xpub : string)
    (net : Network) (mode : SegwitMode) (cashAddress : bool)
| Discovery_monitorAccountActivity (data : AccountInfo) (xpub : string)
    (net : Network) (mode : SegwitMode) (cashAddress : bool)
| Caller_setDisposer (sid : nat)
| Caller_progress (sid : nat) (status : AccountLoadStatus).

Definition Trace := list Effect.

(** ** The object graph *)

(** [this.blockchain]: the endpoints it was built with, the [zcash] flag and
    the listeners of its error channel, in order of attachment. *)
Record BitcoreBlockchain := mkBlockchain {
  endpoints : list string;
  blockchain_zcash : option bool;
  errors : list Handler;
}.

(** The [ending] promise of a discovery session. *)
Inductive Ending :=
| Pending
| Resolved (info : AccountInfo)
| Rejected (e : Error).

(** A session returned by [discovery.discoverAccount]: its progress stream
    (disposed or not, relayed to the caller's callback or not) and its
    ending. *)
Record Session := mkSession {
  stream_disposed : bool;
  stream_relayed : bool;
  ending : Ending;
}.

(** [this.discovery]: the sessions and the activity streams it handed out;
    an object is identified by its position. A stream is recorded by
    whether it was disposed. *)
Record WorkerDiscovery := mkDiscovery {
  sessions : list Session;
  monitors : list bool;
}.

Record BlockBook := mkBlockBook {
  options : Options;
  blockchain : BitcoreBlockchain;
  error : option Error;
  discovery : WorkerDiscovery;
}.

(** The coordinator together with the trace of the calls made so far. *)
Record World := mkWorld { this : BlockBook; trace : Trace }.

(** ** The environment *)

(** The answers of the backend connection and of the libraries, each as a
    function of the calls made so far and of the request. *)
Record Env := mkEnv {
  WebAssembly_defined : bool;
  socket_promise : Trace -> Result unit;
  getInfo : Trace -> Result NetworkInfo;
  lookupBlockHash : Trace -> nat -> Result string;
  lookupTransaction : Trace -> string -> Promise RawTransaction;
  lookupSyncStatus : Trace -> Result SyncStatus;
  sendTransaction_reply : Trace -> string -> Result string;
  fromHex : string -> bool -> Result Transaction;
}.

Variable env : Env.

(** [ERROR.BACKEND_NO_URL] of ../constants/errors. *)
Variable BACKEND_NO_URL : Error.

(** The known-network table of ../data/CoinInfo. *)
Variable coins : list CoinInfo.

(** Modelled from the spec: [getCoinInfoByHash] of ../data/CoinInfo, which is
    not among the sources. It matches the observed genesis hash against the
    known-network table and yields nothing when no entry matches. *)
Definition getCoinInfoByHash (hash : string) (networkInfo : NetworkInfo) : option CoinInfo :=
  find (fun info => bool_decide (hashGenesisBlock info = hash)) coins.

(** ** Field updates *)

Definition set_error (e : option Error) (b : BlockBook) : BlockBook :=
  mkBlockBook (options b) (blockchain b) e (discovery b).

Definition set_blockchain (bc : BitcoreBlockchain) (b : BlockBook) : BlockBook :=
  mkBlockBook (options b) bc (error b) (discovery b).

Definition set_discovery (d : WorkerDiscovery) (b : BlockBook) : BlockBook :=
  mkBlockBook (options b) (blockchain b) (error b) d.

Definition set_zcash (z : bool) (bc : BitcoreBlockchain) : BitcoreBlockchain :=
  mkBlockchain (endpoints bc) (Some z) (errors bc).

(** [emitter.attach(handler)]: the listener is appended. *)
Definition attach (h : Handler) (bc : BitcoreBlockchain) : BitcoreBlockchain :=
  mkBlockchain (endpoints bc) (blockchain_zcash bc) (errors bc ++ [h]).

Definition set_sessions (l : list Session) (d : WorkerDiscovery) : WorkerDiscovery :=
  mkDiscovery l (monitors d).

Definition set_monitors (l : list bool) (d : WorkerDiscovery) : WorkerDiscovery :=
  mkDiscovery (sessions d) l.

Definition with_this (f : BlockBook -> BlockBook) (w : World) : World :=
  mkWorld (f (this w)) (trace w).

(** ** A state-and-exception monad for method bodies *)

Definition M (A : Type) : Type := World -> Result A * World.

Definition ret {A} (a : A) : M A := fun w => (Ok a, w).

Definition throw {A} (e : Error) : M A := fun w => (Err e, w).

Definition bind {A B} (m : M A) (k : A -> M B) : M B :=
  fun w =>
    match m w with
    | (Ok a, w') => k a w'
    | (Err e, w') => (Err e, w')
    end.

Notation "'let*' x ':=' m 'in' k" := (bind m (fun x => k))
  (at level 10, x name, m at level 100, k at level 200).
Notation "'run*' m 'in' k" := (bind m (fun _ => k))
  (at level 10, m at level 100, k at level 200).

(** A call that leaves the coordinator is appended to the trace. *)
Definition effect (ef : Effect) : M unit :=
  fun w => (Ok tt, mkWorld (this w) (trace w ++ [ef])).

(** [await] on a reply of the environment. *)
Definition await {A} (reply : Trace -> Result A) : M A :=
  fun w => (reply (trace w), w).

Definition modify (f : BlockBook -> BlockBook) : M unit :=
  fun w => (Ok tt, with_this f w).

(** [if (this.error) { throw this.error; }] *)
Definition error_guard : M unit :=
  fun w =>
    match error (this w) with
    | Some e => (Err e, w)
    | None => (Ok tt, w)
    end.

(** ** The constructor *)

Definition constructor (opts : Options) (t : Trace) : Result BlockBook * Trace :=
  if decide (length (urls opts) < 1) then (Err BACKEND_NO_URL, t)
  else
    let t1 := t ++ [new_FastXpubWorker; new_BitcoreBlockchain (urls opts)] in
    let t2 := if WebAssembly_defined env then t1 ++ [httpRequest_FastXpubWasm] else t1 in
    let bc := attach setError_bound (mkBlockchain (urls opts) None []) in
    (Ok (mkBlockBook opts bc None (mkDiscovery [] [])), t2 ++ [new_WorkerDiscovery]).

(** [_setError(error) { this.error = error; }] *)
Definition _setError (e : Error) (b : BlockBook) : BlockBook :=
  set_error (Some e) b.

(** ** The discovery engine, as the class uses it *)

Definition update_session (sid : nat) (f : Session -> Session) (b : BlockBook) : BlockBook :=
  set_discovery (set_sessions (alter f sid (sessions (discovery b))) (discovery b)) b.

(** Modelled from the spec: the session object of the discovery engine
    (hd-wallet's [discoverAccount] result, not among the sources).
    [discovery.dispose(e)] cancels the session with reason [e]: the ending is
    rejected with [e] unless it is settled already, and the progress stream
    is disposed. *)
Definition Session_dispose (e : Error) (s : Session) : Session :=
  mkSession true (stream_relayed s)
    (match ending s with Pending => Rejected e | settled => settled end).

(** Modelled from the spec: the discovery engine (not among the sources)
    completes a session; its ending resolves unless it is settled already. *)
Definition Session_finish (info : AccountInfo) (s : Session) : Session :=
  mkSession (stream_disposed s) (stream_relayed s)
    (match ending s with Pending => Resolved info | settled => settled end).

(** [discovery.stream.dispose()] *)
Definition Stream_dispose (s : Session) : Session :=
  mkSession true (stream_relayed s) (ending s).

(** [discovery.stream.values.attach(status => { progress(status); })] *)
Definition Stream_attach_progress (s : Session) : Session :=
  mkSession (stream_disposed s) true (ending s).

(** [res.dispose()] on an activity stream; disposing twice is harmless. *)
Definition Monitor_dispose (mid : nat) (b : BlockBook) : BlockBook :=
  set_discovery (set_monitors (<[mid := true]> (monitors (discovery b))) (discovery b)) b.

(** [this.discovery.discoverAccount(...)] hands out a fresh session. *)
Definition discoverAccount (data : option AccountInfo) (xpub : string)
    (net : Network) (mode : SegwitMode) (cashAddress : bool) : M nat :=
  run* effect (Discovery_discoverAccount data xpub net mode cashAddress) in
  fun w =>
    let d := discovery (this w) in
    (Ok (length (sessions d)),
     with_this (set_discovery (set_sessions (sessions d ++ [mkSession false false Pending]) d)) w).

(** [this.discovery.monitorAccountActivity(...)] hands out a fresh stream. *)
Definition engine_monitorAccountActivity (data : AccountInfo) (xpub : string)
    (net : Network) (mode : SegwitMode) (cashAddress : bool) : M nat :=
  run* effect (Discovery_monitorAccountActivity data xpub net mode cashAddress) in
  fun w =>
    let d := discovery (this w) in
    (Ok (length (monitors d)),
     with_this (set_discovery (set_monitors (monitors d ++ [false]) d)) w).

(** ** The error channel *)

(** What each listener does when the channel delivers [e]: the bodies of the
    three closures. *)
Definition run_handler (e : Error) (h : Handler) (b : BlockBook) : BlockBook :=
  match h with
  | setError_bound => _setError e b
  | dispose_discovery sid => update_session sid (Session_dispose e) b
  | dispose_monitor mid => Monitor_dispose mid b
  end.

(** Modelled from the spec: the error notification channel of the backend
    connection (hd-wallet's emitter, not among the sources).
    [blockchain.errors.values.emit(e)] calls every attached listener with
    [e], in order of attachment. *)
Definition errors_emit (e : Error) (b : BlockBook) : BlockBook :=
  foldl (fun b' h => run_handler e h b') b (errors (blockchain b)).

(** ** The methods *)

(** A request to the backend: the call is recorded, then awaited. *)
Definition request {A} (ef : Effect) (reply : Trace -> Result A) : M A :=
  run* effect ef in await reply.

Definition loadCoinInfo (coinInfo : option CoinInfo) : M unit :=
  let* _ := await (socket_promise env) in
  let* networkInfo := request Socket_send_getInfo (getInfo env) in
  let* info :=
    match coinInfo with
    | Some info => ret info
    | None =>
        let* hash := request (Blockchain_lookupBlockHash 0)
                       (fun t => lookupBlockHash env t 0) in
        match getCoinInfoByHash hash networkInfo with
        | Some info => ret info
        | None => throw (mkError (String.append "Failed to load coinInfo " hash))
        end
    end in
  modify (fun b => set_blockchain (set_zcash (zcash info) (blockchain b)) b).

(** [loadAccountInfo] up to its [await]: the method runs this far without
    yielding, and the promise it returned is rejected at once when the
    guard throws. The result is the session it waits on. *)
Definition loadAccountInfo_start (xpub : string) (data : option AccountInfo)
    (coinInfo : CoinInfo) : M nat :=
  run* error_guard in
  let segwit_s := if segwit coinInfo then p2sh else off in
  let* sid := discoverAccount data xpub (network coinInfo) segwit_s
                (truthy (cashAddrPrefix coinInfo)) in
  run* effect (Caller_setDisposer sid) in
  run* modify (update_session sid Stream_attach_progress) in
  run* modify (fun b => set_blockchain (attach (dispose_discovery sid) (blockchain b)) b) in
  ret sid.

(** [loadAccountInfo] from its [await] on: nothing happens while the ending
    is pending; a resolved ending disposes the stream and is returned; a
    rejected ending is thrown. *)
Definition loadAccountInfo_resume (sid : nat) (w : World)
    : option (Result AccountInfo * World) :=
  match sessions (discovery (this w)) !! sid with
  | Some s =>
      match ending s with
      | Pending => None
      | Resolved info => Some (Ok info, with_this (update_session sid Stream_dispose) w)
      | Rejected e => Some (Err e, w)
      end
  | None => None
  end.

Definition monitorAccountActivity (xpub : string) (data : AccountInfo)
    (coinInfo : CoinInfo) : M nat :=
  run* error_guard in
  let segwit_s := if segwit coinInfo then p2sh else off in
  let* res := engine_monitorAccountActivity data xpub (network coinInfo) segwit_s
                (truthy (cashAddrPrefix coinInfo)) in
  run* modify (fun b => set_blockchain (attach (dispose_monitor res) (blockchain b)) b) in
  ret res.

(** The promise [loadTransaction(id)] returns. The guard and the request run
    at the call; deserialization runs when the reply arrives. *)
Definition loadTransaction_promise (id : string) (w : World)
    : Promise Transaction * World :=
  match error (this w) with
  | Some e => (mkPromise 0 (Err e), w)
  | None =>
      let w' := mkWorld (this w) (trace w ++ [Blockchain_lookupTransaction id]) in
      let reply := lookupTransaction env (trace w') id in
      (mkPromise (settledAt reply)
         (match outcome reply with
          | Ok tx => fromHex env (hex tx) (tx_zcash tx)
          | Err e => Err e
          end),
       w')
  end.

Definition loadTransaction (id : string) : M Transaction :=
  fun w => let (p, w') := loadTransaction_promise id w in (outcome p, w').

(** [array.map(f)] for an [f] with effects: left to right. *)
Fixpoint Array_map {A B} (f : A -> World -> B * World) (l : list A) (w : World)
    : list B * World :=
  match l with
  | [] => ([], w)
  | x :: l' =>
      let (y, w1) := f x w in
      let (ys, w2) := Array_map f l' w1 in
      (y :: ys, w2)
  end.

(** The rejection that settles first, the earlier promise on a tie. *)
Fixpoint first_rejection {A} (ps : list (Promise A)) : option (nat * Error) :=
  match ps with
  | [] => None
  | p :: ps' =>
      match outcome p, first_rejection ps' with
      | Ok _, later => later
      | Err e, None => Some (settledAt p, e)
      | Err e, Some (t', e') =>
          if decide (settledAt p <= t') then Some (settledAt p, e) else Some (t', e')
      end
  end.

(** The values of the fulfilled promises, in the order of the promises. *)
Fixpoint fulfilled {A} (ps : list (Promise A)) : list A :=
  match ps with
  | [] => []
  | p :: ps' =>
      match outcome p with
      | Ok a => a :: fulfilled ps'
      | Err _ => fulfilled ps'
      end
  end.

(** [Promise.all(ps)]: rejects with the first rejection, and otherwise
    resolves with all values in order. *)
Definition Promise_all {A} (ps : list (Promise A)) : Result (list A) :=
  match first_rejection ps with
  | Some (_, e) => Err e
  | None => Ok (fulfilled ps)
  end.

Definition loadTransactions (txs : list string) : M (list Transaction) :=
  run* error_guard in
  fun w =>
    let (ps, w') := Array_map loadTransaction_promise txs w in
    (Promise_all ps, w').

Definition loadCurrentHeight : M N :=
  run* error_guard in
  let* status := request Blockchain_lookupSyncStatus (lookupSyncStatus env) in
  ret (height status).

Definition sendTransactionHex (txHex : string) : M string :=
  run* error_guard in
  request (Blockchain_sendTransaction txHex) (fun t => sendTransaction_reply env t txHex).

Definition sendTransaction (txBytes : list byte) : M string :=
  run* error_guard in
  let txHex := Buffer_toString_hex txBytes in
  request (Blockchain_sendTransaction txHex) (fun t => sendTransaction_reply env t txHex).

(** [dispose() { }] *)
Definition dispose : M unit := ret tt.

(** ** Histories *)

(** What can happen to a coordinator: the backend reports an error, the
    engine emits progress or completes a session, the caller uses a
    disposer, a suspended [loadAccountInfo] continues, or a method is
    called. *)
Inductive Action :=
| backend_error (e : Error)
| engine_progress (sid : nat) (status : AccountLoadStatus)
| engine_finish (sid : nat) (info : AccountInfo)
| caller_dispose (sid : nat)
| caller_dispose_monitor (mid : nat)
| resume_loadAccountInfo (sid : nat)
| call_loadCoinInfo (coinInfo : option CoinInfo)
| call_loadAccountInfo (xpub : string) (data : option AccountInfo) (coinInfo : CoinInfo)
| call_monitorAccountActivity (xpub : string) (data : AccountInfo) (coinInfo : CoinInfo)
| call_loadTransaction (id : string)
| call_loadTransactions (txs : list string)
| call_loadCurrentHeight
| call_sendTransaction (txBytes : list byte)
| call_sendTransactionHex (txHex : string)
| call_dispose.

Definition is_pending (en : Ending) : bool :=
  match en with Pending => true | _ => false end.

Definition step (a : Action) (w : World) : World :=
  match a with
  | backend_error e => with_this (errors_emit e) w
  | engine_progress sid status =>
      match sessions (discovery (this w)) !! sid with
      | Some s =>
          if stream_relayed s && negb (stream_disposed s) && is_pending (ending s)
          then snd (effect (Caller_progress sid status) w)
          else w
      | None => w
      end
  | engine_finish sid info => with_this (update_session sid (Session_finish info)) w
  | caller_dispose sid =>
      (* () => discovery.dispose(new Error('Interrupted by user')) *)
      with_this (update_session sid (Session_dispose (mkError "Interrupted by user"))) w
  | caller_dispose_monitor mid => with_this (Monitor_dispose mid) w
  | resume_loadAccountInfo sid =>
      match loadAccountInfo_resume sid w with
      | Some (_, w') => w'
      | None => w
      end
  | call_loadCoinInfo coinInfo => snd (loadCoinInfo coinInfo w)
  | call_loadAccountInfo xpub data coinInfo => snd (loadAccountInfo_start xpub data coinInfo w)
  | call_monitorAccountActivity xpub data coinInfo =>
      snd (monitorAccountActivity xpub data coinInfo w)
  | call_loadTransaction id => snd (loadTransaction id w)
  | call_loadTransactions txs => snd (loadTransactions txs w)
  | call_loadCurrentHeight => snd (loadCurrentHeight w)
  | call_sendTransaction txBytes => snd (sendTransaction txBytes w)
  | call_sendTransactionHex txHex => snd (sendTransactionHex txHex w)
  | call_dispose => snd (dispose w)
  end.

Definition run (acts : list Action) (w : World) : World :=
  foldl (fun w' a => step a w') w acts.

(** The outcome of a [loadAccountInfo] call waiting on session [sid], once
    its ending is settled. *)
Definition loadAccountInfo_outcome (sid : nat) (w : World) : option (Result AccountInfo) :=
  fst <$> loadAccountInfo_resume sid w.

(** The state of the [ending] promise of session [sid]. *)
Definition session_ending (sid : nat) (w : World) : option Ending :=
  ending <$> sessions (discovery (this w)) !! sid.

(** ** What no history undoes *)

(** [evolves b b']: listeners are only added, a stored error stays stored,
    sessions are only added and a settled ending stays as it is. *)
Record evolves (b b' : BlockBook) : Prop := mkEvolves {
  evolves_errors : exists l, errors (blockchain b') = errors (blockchain b) ++ l;
  evolves_error : is_Some (error b) -> is_Some (error b');
  evolves_length : length (sessions (discovery b)) <= length (sessions (discovery b'));
  evolves_sessions : forall sid s,
    sessions (discovery b) !! sid = Some s ->
    exists s', sessions (discovery b') !! sid = Some s'
               /\ (ending s <> Pending -> ending s' = ending s);
}.

(** ** Shapes of a step *)

Definition is_backend_error (a : Action) : bool :=
  match a with backend_error _ => true | _ => false end.

Definition is_loadCoinInfo_call (a : Action) : bool :=
  match a with call_loadCoinInfo _ => true | _ => false end.

(** Every way a step can change the object: not at all, by a delivery on
    the error channel, by an update of one session that keeps a settled
    ending, by disposing an activity stream, by [loadCoinInfo] writing the
    [zcash] flag, or by [loadAccountInfo] or [monitorAccountActivity]
    passing the guard. *)
Inductive step_shape (a : Action) (b : BlockBook) : BlockBook -> Prop :=
| shape_same : step_shape a b b
| shape_emit e : a = backend_error e -> step_shape a b (errors_emit e b)
| shape_session sid f :
    is_backend_error a = false -> is_loadCoinInfo_call a = false ->
    (forall s, ending s <> Pending -> ending (f s) = ending s) ->
    step_shape a b (update_session sid f b)
| shape_monitor mid :
    is_backend_error a = false -> is_loadCoinInfo_call a = false ->
    step_shape a b (Monitor_dispose mid b)
| shape_zcash z :
    is_loadCoinInfo_call a = true ->
    step_shape a b (set_blockchain (set_zcash z (blockchain b)) b)
| shape_start :
    is_backend_error a = false -> is_loadCoinInfo_call a = false ->
    error b = None ->
    step_shape a b
      (mkBlockBook (options b)
         (attach (dispose_discovery (length (sessions (discovery b)))) (blockchain b))
         None
         (mkDiscovery (sessions (discovery b) ++ [mkSession false true Pending])
            (monitors (discovery b))))
| shape_monitor_start :
    is_backend_error a = false -> is_loadCoinInfo_call a = false ->
    error b = None ->
    step_shape a b
      (mkBlockBook (options b)
         (attach (dispose_monitor (length (monitors (discovery b)))) (blockchain b))
         None
         (mkDiscovery (sessions (discovery b)) (monitors (discovery b) ++ [false]))).

(** Every session and every activity stream has its listener on the error
    channel, next to the listener of the constructor, and nothing else is
    attached. *)
Record wired (b : BlockBook) : Prop := mkWired {
  wired_setError : setError_bound ∈ errors (blockchain b);
  wired_sessions : forall sid,
    sid < length (sessions (discovery b)) -> dispose_discovery sid ∈ errors (blockchain b);
  wired_monitors : forall mid,
    mid < length (monitors (discovery b)) -> dispose_monitor mid ∈ errors (blockchain b);
  wired_count :
    length (errors (blockchain b))
    = 1 + length (sessions (discovery b)) + length (monitors (discovery b));
}.

End Coordinator.

(** * A coordinator on a concrete backend *)

Definition bitcoin : @CoinInfo string :=
  mkCoinInfo "bitcoin"
    "000000000019d6689c085ae165831e934ff763ae46a2a6c172b3f1b60a8ce26f" true None false.

Definition zcash_coin : @CoinInfo string :=
  mkCoinInfo "zcash"
    "00040fe8ec8471911baa1db1266ea15dd06b4a8a5c453883c000b031973dce08" false None true.

Definition bcash : @CoinInfo string :=
  mkCoinInfo "bcash"
    "000000000000000000651ef99cb9fcbe0dadde1d424bd9f15ff20136191a5eec" false
    (Some "bitcoincash") false.

Definition known_coins : list (@CoinInfo string) := [bitcoin; zcash_coin; bcash].

(** A backend that answers every request; it reports [genesis] as the hash
    of block 0 and knows every transaction but the one called "missing". *)
Definition backend (genesis : string) : @Env string nat string string string :=
  mkEnv true
    (fun _ => Ok tt)
    (fun _ => Ok "getInfo reply")
    (fun _ _ => Ok genesis)
    (fun _ id => if bool_decide (id = "missing")
                 then mkPromise 1 (Err (mkError "tx not found"))
                 else mkPromise 2 (Ok (mkRawTransaction id false)))
    (fun _ => Ok (mkSyncStatus 500000))
    (fun _ _ => Ok "txid")
    (fun h _ => Ok h).

Definition bitcoin_backend := backend (hashGenesisBlock bitcoin).
Definition unknown_backend := backend "ff".
Definition zcash_backend := backend (hashGenesisBlock zcash_coin).

Definition no_url : Error := mkError "no backend url".
Definition first_failure : Error := mkError "socket closed".
Definition second_failure : Error := mkError "socket timeout".

Definition one_url : @Options string := mkOptions ["https://blockbook.example"] bitcoin.

Definition fresh_blockbook : @BlockBook string string :=
  mkBlockBook one_url
    (mkBlockchain ["https://blockbook.example"] None [setError_bound])
    None (mkDiscovery [] []).

Definition fresh_trace : @Trace string nat string :=
  [new_FastXpubWorker; new_BitcoreBlockchain ["https://blockbook.example"];
   httpRequest_FastXpubWasm; new_WorkerDiscovery].

Definition fresh : @World string nat string := mkWorld fresh_blockbook fresh_trace.

(** The coordinator after the backend reported [first_failure]. *)
Definition failed : @World string nat string :=
  run bitcoin_backend known_coins [backend_error first_failure] fresh.

(** The coordinator after a [loadAccountInfo] call that waits on session 0. *)
Definition discovering : @World string nat string :=
  snd (loadAccountInfo_start "xpub" None bitcoin fresh).

(** A backend whose socket never connects. *)
Definition offline_backend : @Env string nat string string string :=
  mkEnv true
    (fun _ => Err (mkError "connect failed"))
    (fun _ => Ok "getInfo reply")
    (fun _ _ => Ok (hashGenesisBlock bitcoin))
    (fun _ _ => mkPromise 1 (Err (mkError "tx not found")))
    (fun _ => Err (mkError "no status"))
    (fun _ _ => Err (mkError "rejected"))
    (fun h _ => Ok h).

(** A backend that connects and then fails every request. *)
Definition failing_backend : @Env string nat string string string :=
  mkEnv false
    (fun _ => Ok tt)
    (fun _ => Err (mkError "getInfo failed"))
    (fun _ _ => Err (mkError "no block"))
    (fun _ _ => mkPromise 1 (Err (mkError "tx not found")))
    (fun _ => Err (mkError "no status"))
    (fun _ _ => Err (mkError "rejected"))
    (fun h _ => Ok h).

(** A backend that answers [getInfo] and fails the lookup of block 0. *)
Definition no_genesis_backend : @Env string nat string string string :=
  mkEnv true
    (fun _ => Ok tt)
    (fun _ => Ok "getInfo reply")
    (fun _ _ => Err (mkError "no block"))
    (fun _ _ => mkPromise 1 (Err (mkError "tx not found")))
    (fun _ => Err (mkError "no status"))
    (fun _ _ => Err (mkError "rejected"))
    (fun h _ => Ok h).

(** The coordinator after a [monitorAccountActivity] call that returned
    stream 0. *)
Definition monitoring : @World string nat string :=
  snd (monitorAccountActivity "xpub" "snapshot" bitcoin fresh).

(** The coordinator after two reports of the backend and a call. *)
Definition failed_twice : @World string nat string :=
  run bitcoin_backend known_coins [call_loadCurrentHeight; engine_finish 0 "snapshot"]
    (step bitcoin_backend known_coins (backend_error second_failure)
       (run bitcoin_backend known_coins [backend_error first_failure] fresh)).

(** * Properties *)

Section Properties.

Context {AccountInfo AccountLoadStatus Network NetworkInfo Transaction : Type}.
Variable env : @Env AccountInfo AccountLoadStatus Network NetworkInfo Transaction.
Variable BACKEND_NO_URL : Error.
Variable coins : list (@CoinInfo Network).

Implicit Types (w : @World AccountInfo AccountLoadStatus Network).
Implicit Types (b : @BlockBook AccountInfo Network).
Implicit Types (s : @Session AccountInfo).
Implicit Types (acts pre post : list (@Action AccountInfo AccountLoadStatus Network)).

(** ** The methods that only talk to the backend leave the object alone *)

Lemma Array_map_loadTransaction_this txs w :
  this (snd (Array_map (loadTransaction_promise env) txs w)) = this w.
Proof.
  revert w. induction txs as [|id txs IH]; intros w; simpl; [done|].
  destruct (loadTransaction_promise env id w) as [p w1] eqn:E1.
  destruct (Array_map (loadTransaction_promise env) txs w1) as [ps w2] eqn:E2.
  simpl. specialize (IH w1). rewrite E2 in IH. simpl in IH. rewrite IH.
  unfold loadTransaction_promise in E1.
  destruct (error (this w)); inversion E1; done.
Qed.

Lemma loadTransaction_this id w : this (snd (loadTransaction env id w)) = this w.
Proof.
  unfold loadTransaction, loadTransaction_promise.
  destruct (error (this w)); done.
Qed.

Lemma loadTransactions_this txs w : this (snd (loadTransactions env txs w)) = this w.
Proof.
  unfold loadTransactions, bind, error_guard.
  destruct (error (this w)); [done|].
  pose proof (Array_map_loadTransaction_this txs w) as H.
  destruct (Array_map (loadTransaction_promise env) txs w); done.
Qed.

Lemma loadCurrentHeight_this w : this (snd (loadCurrentHeight env w)) = this w.
Proof.
  unfold loadCurrentHeight, request, bind, error_guard, effect, await, ret.
  destruct (error (this w)); [done|]. simpl.
  try case_match; done.
Qed.

Lemma sendTransactionHex_this txHex w : this (snd (sendTransactionHex env txHex w)) = this w.
Proof.
  unfold sendTransactionHex, request, bind, error_guard, effect, await.
  destruct (error (this w)); [done|]. simpl.
  try case_match; done.
Qed.

Lemma sendTransaction_this txBytes w : this (snd (sendTransaction env txBytes w)) = this w.
Proof.
  unfold sendTransaction, request, bind, error_guard, effect, await.
  destruct (error (this w)); [done|]. simpl.
  try case_match; done.
Qed.

(** [loadCoinInfo] writes at most the [zcash] flag of the connection. *)
Lemma loadCoinInfo_this coinInfo w :
  this (snd (loadCoinInfo env coins coinInfo w)) = this w
  \/ exists z, this (snd (loadCoinInfo env coins coinInfo w))
               = set_blockchain (set_zcash z (blockchain (this w))) (this w).
Proof.
  unfold loadCoinInfo, request, bind, effect, await, ret, throw, modify, with_this.
  destruct (socket_promise env _); [|by left]. simpl.
  destruct (getInfo env _); [|by left]. simpl.
  destruct coinInfo as [info|]; simpl; [right; by eexists|].
  destruct (lookupBlockHash env _ _); [|by left]. simpl.
  destruct (getCoinInfoByHash coins _ _); simpl; [right; by eexists | by left].
Qed.

(** [loadAccountInfo] either throws at the guard or opens session
    [length sessions], relays its progress and attaches its listener. *)
Lemma loadAccountInfo_start_this xpub data coinInfo w :
  (exists e, error (this w) = Some e
             /\ loadAccountInfo_start xpub data coinInfo w = (Err e, w))
  \/ (error (this w) = None
      /\ fst (loadAccountInfo_start xpub data coinInfo w)
         = Ok (length (sessions (discovery (this w))))
      /\ this (snd (loadAccountInfo_start xpub data coinInfo w))
         = mkBlockBook (options (this w))
             (attach (dispose_discovery (length (sessions (discovery (this w)))))
                (blockchain (this w)))
             None
             (mkDiscovery (sessions (discovery (this w)) ++ [mkSession false true Pending])
                (monitors (discovery (this w))))).
Proof.
  unfold loadAccountInfo_start, discoverAccount, bind, error_guard, effect, modify, ret, with_this.
  destruct (error (this w)) as [e|] eqn:E; [left; by exists e|].
  right. split; [done|]. simpl. split; [done|].
  unfold update_session, set_blockchain, set_discovery, set_sessions. simpl.
  rewrite E. f_equal. f_equal.
  by rewrite alter_app_r_alt, Nat.sub_diag.
Qed.

Lemma monitorAccountActivity_this xpub data coinInfo w :
  (exists e, error (this w) = Some e
             /\ monitorAccountActivity xpub data coinInfo w = (Err e, w))
  \/ (error (this w) = None
      /\ fst (monitorAccountActivity xpub data coinInfo w)
         = Ok (length (monitors (discovery (this w))))
      /\ this (snd (monitorAccountActivity xpub data coinInfo w))
         = mkBlockBook (options (this w))
             (attach (dispose_monitor (length (monitors (discovery (this w)))))
                (blockchain (this w)))
             None
             (mkDiscovery (sessions (discovery (this w)))
                (monitors (discovery (this w)) ++ [false]))).
Proof.
  unfold monitorAccountActivity, engine_monitorAccountActivity, bind, error_guard,
    effect, modify, ret, with_this.
  destruct (error (this w)) as [e|] eqn:E; [left; by exists e|].
  right. split; [done|]. simpl. split; [done|].
  unfold set_blockchain, set_discovery, set_monitors. simpl. by rewrite E.
Qed.

Lemma evolves_refl b : evolves b b.
Proof.
  split; [exists []; by rewrite app_nil_r | done | done |].
  intros sid s H. by exists s.
Qed.

Lemma evolves_trans b1 b2 b3 : evolves b1 b2 -> evolves b2 b3 -> evolves b1 b3.
Proof.
  intros [[l1 E1] S1 N1 P1] [[l2 E2] S2 N2 P2]. split.
  - exists (l1 ++ l2). by rewrite E2, E1, app_assoc.
  - auto.
  - lia.
  - intros sid s H. destruct (P1 sid s H) as (s' & H' & K').
    destruct (P2 sid s' H') as (s'' & H'' & K''). exists s''. split; [done|].
    intros Hs. rewrite <- (K' Hs). apply K''. by rewrite (K' Hs).
Qed.

(** An update of one session that keeps settled endings. *)
Lemma update_session_evolves sid f b :
  (forall s, ending s <> Pending -> ending (f s) = ending s) ->
  evolves b (update_session sid f b).
Proof.
  intros Hf. split; simpl.
  - exists []. by rewrite app_nil_r.
  - done.
  - by rewrite length_alter.
  - intros j s H. destruct (decide (sid = j)) as [->|Hne].
    + exists (f s). rewrite list_lookup_alter_eq, H. split; [done|]. apply Hf.
    + exists s. by rewrite list_lookup_alter_ne.
Qed.

Lemma Session_dispose_settled e s :
  ending s <> Pending -> ending (Session_dispose e s) = ending s.
Proof. simpl. by destruct (ending s). Qed.

Lemma Session_finish_settled info s :
  ending s <> Pending -> ending (Session_finish info s) = ending s.
Proof. simpl. by destruct (ending s). Qed.

Lemma same_sessions_evolves b b' :
  (exists l, errors (blockchain b') = errors (blockchain b) ++ l) ->
  (is_Some (error b) -> is_Some (error b')) ->
  sessions (discovery b') = sessions (discovery b) ->
  evolves b b'.
Proof.
  intros He Hs Hd. split; [done | done | by rewrite Hd |].
  intros sid s H. exists s. by rewrite Hd.
Qed.

Lemma run_handler_evolves e h b : evolves b (run_handler e h b).
Proof.
  destruct h as [|sid|mid]; simpl.
  - apply same_sessions_evolves; simpl; [exists []; by rewrite app_nil_r | done | done].
  - apply update_session_evolves, Session_dispose_settled.
  - apply same_sessions_evolves; simpl; [exists []; by rewrite app_nil_r | done | done].
Qed.

Lemma foldl_run_handler_evolves e l b :
  evolves b (foldl (fun b' h => run_handler e h b') b l).
Proof.
  revert b. induction l as [|h l IH]; intros b; simpl; [apply evolves_refl|].
  eapply evolves_trans; [apply run_handler_evolves | apply IH].
Qed.

Lemma errors_emit_evolves e b : evolves b (errors_emit e b).
Proof. apply foldl_run_handler_evolves. Qed.

Lemma step_evolves a w : evolves (this w) (this (step env coins a w)).
Proof.
  destruct a as [e|sid status|sid info|sid|mid|sid|ci|xpub data ci|xpub data ci
                 |id|txs| |txBytes|txHex| ]; simpl.
  - apply errors_emit_evolves.
  - destruct (sessions (discovery (this w)) !! sid) as [s|]; [|apply evolves_refl].
    destruct (_ && _); apply evolves_refl.
  - apply update_session_evolves, Session_finish_settled.
  - apply update_session_evolves, Session_dispose_settled.
  - apply same_sessions_evolves; simpl; [exists []; by rewrite app_nil_r | done | done].
  - unfold loadAccountInfo_resume.
    destruct (sessions (discovery (this w)) !! sid) as [s|]; [|apply evolves_refl].
    destruct (ending s); try apply evolves_refl.
    simpl. by apply update_session_evolves.
  - destruct (loadCoinInfo_this ci w) as [->|[z ->]]; [apply evolves_refl|].
    apply same_sessions_evolves; simpl; [exists []; by rewrite app_nil_r | done | done].
  - destruct (loadAccountInfo_start_this xpub data ci w)
      as [(e & _ & ->)|(He & _ & ->)]; [apply evolves_refl|].
    split; simpl.
    + by eexists.
    + rewrite He. by intros [? ?].
    + rewrite length_app. lia.
    + intros j s H. exists s. split; [|done]. by apply lookup_app_l_Some.
  - destruct (monitorAccountActivity_this xpub data ci w)
      as [(e & _ & ->)|(He & _ & ->)]; [apply evolves_refl|].
    apply same_sessions_evolves; simpl; [by eexists | | done].
    rewrite He. by intros [? ?].
  - rewrite loadTransaction_this. apply evolves_refl.
  - rewrite loadTransactions_this. apply evolves_refl.
  - rewrite loadCurrentHeight_this. apply evolves_refl.
  - rewrite sendTransaction_this. apply evolves_refl.
  - rewrite sendTransactionHex_this. apply evolves_refl.
  - apply evolves_refl.
Qed.

Lemma run_evolves acts w : evolves (this w) (this (run env coins acts w)).
Proof.
  revert w. induction acts as [|a acts IH]; intros w; simpl; [apply evolves_refl|].
  eapply evolves_trans; [apply step_evolves | apply IH].
Qed.

Lemma run_app acts1 acts2 w : run env coins (acts1 ++ acts2) w = run env coins acts2 (run env coins acts1 w).
Proof. apply foldl_app. Qed.

(** ** The error field *)

Lemma run_handler_keeps_error e h b :
  error b = Some e -> error (run_handler e h b) = Some e.
Proof. by destruct h. Qed.

Lemma foldl_run_handler_keeps_error e l b :
  error b = Some e -> error (foldl (fun b' h => run_handler e h b') b l) = Some e.
Proof.
  revert b. induction l as [|h l IH]; intros b H; simpl; [done|].
  by apply IH, run_handler_keeps_error.
Qed.

Lemma foldl_run_handler_sets_error e l b :
  setError_bound ∈ l -> error (foldl (fun b' h => run_handler e h b') b l) = Some e.
Proof.
  revert b. induction l as [|h l IH]; intros b H; [by apply elem_of_nil in H|].
  apply elem_of_cons in H as [<-|H]; simpl.
  - by apply foldl_run_handler_keeps_error.
  - by apply IH.
Qed.

Lemma constructor_attaches_setError opts t b t' :
  constructor env BACKEND_NO_URL opts t = (Ok b, t') -> setError_bound ∈ errors (blockchain b).
Proof.
  unfold constructor. case_decide; [done|]. intros [= <- _]. simpl. set_solver.
Qed.

Lemma evolves_keeps_listener h b b' :
  evolves b b' -> h ∈ errors (blockchain b) -> h ∈ errors (blockchain b').
Proof. intros [[l ->] _ _ _] H. apply elem_of_app. by left. Qed.

(** C1, as the code has it: on a constructed coordinator, after any history,
    every error the channel delivers is stored in the error field, replacing
    the one stored before (the last error wins); and whatever happens next,
    the field stays set. *)
Theorem error_field_holds_last_error opts t b t' acts e acts' :
  constructor env BACKEND_NO_URL opts t = (Ok b, t') ->
  error (this (step env coins (backend_error e) (run env coins acts (mkWorld b t')))) = Some e
  /\ is_Some (error (this (run env coins acts' (step env coins (backend_error e) (run env coins acts (mkWorld b t')))))).
Proof.
  intros Hc.
  assert (error (this (step env coins (backend_error e) (run env coins acts (mkWorld b t')))) = Some e) as He.
  { simpl. apply foldl_run_handler_sets_error.
    apply (evolves_keeps_listener _ b); [apply (run_evolves acts (mkWorld b t'))|].
    by eapply constructor_attaches_setError. }
  split; [done|].
  apply (evolves_error _ _ (run_evolves acts' _)). by rewrite He.
Qed.

(** ** The guard *)

(** C2: with the error field set, each gated method fails with the stored
    error and leaves the coordinator and the trace as they were: nothing is
    asked of the backend or of the engine. *)
Theorem gated_methods_fail_with_stored_error w e :
  error (this w) = Some e ->
  (forall xpub data ci, loadAccountInfo_start xpub data ci w = (Err e, w))
  /\ (forall xpub data ci, monitorAccountActivity xpub data ci w = (Err e, w))
  /\ (forall id, loadTransaction env id w = (Err e, w))
  /\ (forall txs, loadTransactions env txs w = (Err e, w))
  /\ loadCurrentHeight env w = (Err e, w)
  /\ (forall txBytes, sendTransaction env txBytes w = (Err e, w))
  /\ (forall txHex, sendTransactionHex env txHex w = (Err e, w)).
Proof.
  intros H. repeat split; intros;
    unfold loadAccountInfo_start, monitorAccountActivity, loadTransaction,
      loadTransaction_promise, loadTransactions, loadCurrentHeight, sendTransaction,
      sendTransactionHex, bind, error_guard;
    by rewrite H.
Qed.

(** ** Construction *)

(** C3: with an empty list of urls the constructor throws
    [ERROR.BACKEND_NO_URL] and the trace is as before: no worker, no
    backend connection and no discovery engine was created. *)
Theorem constructor_rejects_empty_urls ci t :
  constructor env BACKEND_NO_URL (mkOptions [] ci) t = (Err BACKEND_NO_URL, t).
Proof. reflexivity. Qed.

(** With at least one url the objects are created, the backend connection
    before the discovery engine. *)
Lemma constructor_creates_objects url rest ci t :
  exists b t', constructor env BACKEND_NO_URL (mkOptions (url :: rest) ci) t = (Ok b, t')
    /\ new_BitcoreBlockchain (url :: rest) ∈ t' /\ new_WorkerDiscovery ∈ t'.
Proof.
  unfold constructor. simpl.
  eexists _, _. split; [done|]. destruct (WebAssembly_defined env); set_solver.
Qed.

(** ** Network identification *)

Lemma getCoinInfoByHash_None hash (ni : NetworkInfo) :
  (forall info, info ∈ coins -> hashGenesisBlock info <> hash) ->
  getCoinInfoByHash coins hash ni = None.
Proof.
  unfold getCoinInfoByHash. induction coins as [|info l IH]; intros H; simpl; [done|].
  rewrite bool_decide_eq_false_2; [|apply H; set_solver].
  apply IH. intros info' Hin. apply H. set_solver.
Qed.

(** C4: [loadCoinInfo] never reads the error field: with the field
    overwritten by any value it returns the same result and leaves the same
    world, up to that field. And called without a descriptor, when the
    backend answers and the genesis hash it reports equals the hash of no
    entry of the table, it throws [Error('Failed to load coinInfo ' + hash)]. *)
Theorem loadCoinInfo_not_gated_and_unknown_network w :
  (forall ci oe,
     loadCoinInfo env coins ci (with_this (set_error oe) w)
     = (fst (loadCoinInfo env coins ci w), with_this (set_error oe) (snd (loadCoinInfo env coins ci w))))
  /\ (forall ni hash,
        socket_promise env (trace w) = Ok tt ->
        getInfo env (trace w ++ [Socket_send_getInfo]) = Ok ni ->
        lookupBlockHash env
          ((trace w ++ [Socket_send_getInfo]) ++ [Blockchain_lookupBlockHash 0]) 0 = Ok hash ->
        (forall info, info ∈ coins -> hashGenesisBlock info <> hash) ->
        fst (loadCoinInfo env coins None w)
        = Err (mkError (String.append "Failed to load coinInfo " hash))).
Proof.
  split.
  - intros ci oe.
    unfold loadCoinInfo, request, bind, effect, await, ret, throw, modify, with_this. simpl.
    destruct (socket_promise env _); [|done]. simpl.
    destruct (getInfo env _); [|done]. simpl.
    destruct ci as [info|]; simpl; [done|].
    destruct (lookupBlockHash env _ _); [|done]. simpl.
    by destruct (getCoinInfoByHash coins _ _).
  - intros ni hash Hs Hi Hh Hc.
    unfold loadCoinInfo, request, bind, effect, await, ret, throw, modify, with_this. simpl.
    rewrite Hs. simpl. rewrite Hi. simpl. rewrite Hh. simpl.
    by rewrite getCoinInfoByHash_None.
Qed.

Lemma loadCoinInfo_given_descriptor ci w ni :
  socket_promise env (trace w) = Ok tt ->
  getInfo env (trace w ++ [Socket_send_getInfo]) = Ok ni ->
  loadCoinInfo env coins (Some ci) w
  = (Ok tt,
     mkWorld (set_blockchain (set_zcash (zcash ci) (blockchain (this w))) (this w))
       (trace w ++ [Socket_send_getInfo])).
Proof.
  intros Hs Hi.
  unfold loadCoinInfo, request, bind, effect, await, ret, modify, with_this. simpl.
  rewrite Hs. simpl. by rewrite Hi.
Qed.

(** C5, as the code has it: a successful [loadCoinInfo] stores the [zcash]
    flag of the descriptor it was given or, given none, of the descriptor
    the genesis hash resolved to, on the backend connection, and nothing
    else; a later call with any other descriptor, the backend answering
    again, succeeds as well and overwrites the flag with that descriptor's. *)
Theorem loadCoinInfo_overwrites_zcash w given ci2 w1 ni :
  loadCoinInfo env coins given w = (Ok tt, w1) ->
  socket_promise env (trace w1) = Ok tt ->
  getInfo env (trace w1 ++ [Socket_send_getInfo]) = Ok ni ->
  (exists info,
     match given with
     | Some ci1 => info = ci1
     | None =>
         exists ni0 hash,
           getInfo env (trace w ++ [Socket_send_getInfo]) = Ok ni0
           /\ lookupBlockHash env
                ((trace w ++ [Socket_send_getInfo]) ++ [Blockchain_lookupBlockHash 0]) 0
              = Ok hash
           /\ getCoinInfoByHash coins hash ni0 = Some info
     end
     /\ this w1 = set_blockchain (set_zcash (zcash info) (blockchain (this w))) (this w))
  /\ fst (loadCoinInfo env coins (Some ci2) w1) = Ok tt
  /\ blockchain_zcash (blockchain (this (snd (loadCoinInfo env coins (Some ci2) w1))))
     = Some (zcash ci2).
Proof.
  intros H1 Hs Hi. split.
  - clear Hs Hi. revert H1.
    unfold loadCoinInfo, request, bind, effect, await, ret, throw, modify, with_this. simpl.
    destruct (socket_promise env (trace w)); [|done]. simpl.
    destruct (getInfo env (trace w ++ _)) as [ni0|]; [|done]. simpl.
    destruct given as [ci1|]; simpl.
    { intros [= <-]. by exists ci1. }
    destruct (lookupBlockHash env _ 0) as [hash|] eqn:Hh; [|done]. simpl.
    destruct (getCoinInfoByHash coins hash ni0) as [info|] eqn:Hg; [|done]. simpl.
    intros [= <-]. exists info. split; [|done]. by exists ni0, hash.
  - by rewrite (loadCoinInfo_given_descriptor ci2 w1 ni).
Qed.

(** ** Discovery parameters *)

(** C7: with the error field unset, [loadAccountInfo] and
    [monitorAccountActivity] each ask the engine with the same mode and
    flag: the mode is [p2sh] exactly when the descriptor has [segwit] and
    [off] otherwise, and the flag is set exactly when the descriptor has a
    non-empty [cashAddrPrefix]. *)
Theorem discovery_parameters w xpub data snapshot ci :
  error (this w) = None ->
  exists mode flag sid,
    trace (snd (loadAccountInfo_start xpub data ci w))
    = trace w ++ [Discovery_discoverAccount data xpub (network ci) mode flag;
                  Caller_setDisposer sid]
    /\ trace (snd (monitorAccountActivity xpub snapshot ci w))
       = trace w ++ [Discovery_monitorAccountActivity snapshot xpub (network ci) mode flag]
    /\ (mode = p2sh <-> segwit ci = true)
    /\ (mode = off <-> segwit ci = false)
    /\ (flag = true <-> exists prefix, cashAddrPrefix ci = Some prefix /\ prefix <> EmptyString).
Proof.
  intros H.
  exists (if segwit ci then p2sh else off), (truthy (cashAddrPrefix ci)),
    (length (sessions (discovery (this w)))).
  unfold loadAccountInfo_start, monitorAccountActivity, discoverAccount,
    engine_monitorAccountActivity, bind, error_guard, effect, modify, ret, with_this.
  rewrite H. simpl. split; [by rewrite <- app_assoc|]. split; [done|].
  split; [by destruct (segwit ci)|]. split; [by destruct (segwit ci)|].
  destruct (cashAddrPrefix ci) as [[|c prefix]|]; simpl; split; try done.
  - by intros (prefix & [= <-] & Hne).
  - intros _. by eexists.
  - by intros (prefix & [=] & _).
Qed.

(** ** Batch fetch *)

Lemma first_rejection_Exists {A} (ps : list (Promise A)) :
  Exists is_rejected ps -> exists t e, first_rejection ps = Some (t, e).
Proof.
  induction ps as [|p ps IH]; intros H; [by apply Exists_nil in H|].
  apply Exists_cons in H. simpl. unfold is_rejected in H.
  destruct (outcome p) as [a|e].
  - destruct H as [[]|H]. by apply IH.
  - destruct (first_rejection ps) as [[t' e']|]; [case_decide|]; by eexists _, _.
Qed.

(** The rejection [Promise.all] reports is one of the promises', and no
    rejected promise settles before it. *)
Lemma first_rejection_earliest {A} (ps : list (Promise A)) t e :
  first_rejection ps = Some (t, e) ->
  (exists p, p ∈ ps /\ outcome p = Err e /\ settledAt p = t)
  /\ (forall q, q ∈ ps -> is_rejected q -> t <= settledAt q).
Proof.
  revert t e. induction ps as [|p ps IH]; intros t e; simpl; [done|].
  unfold is_rejected in *.
  destruct (outcome p) as [a|e0] eqn:Ho.
  - intros H. destruct (IH _ _ H) as [(p' & Hin & Hp) Hmin]. split.
    + exists p'. split; [by apply elem_of_cons; right | done].
    + intros q Hq Hr. apply elem_of_cons in Hq as [->|Hq]; [by rewrite Ho in Hr | by apply Hmin].
  - destruct (first_rejection ps) as [[t' e']|] eqn:Hf.
    + destruct (IH _ _ eq_refl) as [(p' & Hin & Hp) Hmin].
      case_decide as Hle; intros [= <- <-]; split.
      * exists p. split; [by apply elem_of_cons; left | done].
      * intros q Hq Hr. apply elem_of_cons in Hq as [->|Hq]; [lia|].
        specialize (Hmin q Hq Hr). lia.
      * exists p'. split; [by apply elem_of_cons; right | done].
      * intros q Hq Hr. apply elem_of_cons in Hq as [->|Hq]; [lia | by apply Hmin].
    + intros [= <- <-]. split.
      * exists p. split; [by apply elem_of_cons; left | done].
      * intros q Hq Hr. apply elem_of_cons in Hq as [->|Hq]; [lia|].
        exfalso. clear IH. induction ps as [|p' ps IH']; [by apply elem_of_nil in Hq|].
        simpl in Hf. apply elem_of_cons in Hq as [->|Hq].
        -- destruct (outcome p'); [done|]. by destruct (first_rejection ps) as [[? ?]|]; [case_decide|].
        -- apply IH'; [|done]. destruct (outcome p'); [done|].
           by destruct (first_rejection ps) as [[? ?]|]; [case_decide|].
Qed.

Lemma fulfilled_all {A} (ps : list (Promise A)) :
  first_rejection ps = None ->
  Forall2 (fun p a => outcome p = Ok a) ps (fulfilled ps).
Proof.
  induction ps as [|p ps IH]; simpl; [constructor|].
  destruct (outcome p) as [a|e] eqn:Ho.
  - intros H. constructor; [done | by apply IH].
  - by destruct (first_rejection ps) as [[? ?]|]; [case_decide|].
Qed.

Lemma Array_map_length {A B} (f : A -> World -> B * World) l w :
  length (fst (Array_map f l w)) = length l.
Proof.
  revert w. induction l as [|x l IH]; intros w; simpl; [done|].
  destruct (f x w) as [y w1]. specialize (IH w1).
  destruct (Array_map f l w1). simpl in *. by rewrite IH.
Qed.

Lemma Array_map_loadTransaction_trace txs w :
  error (this w) = None ->
  trace (snd (Array_map (loadTransaction_promise env) txs w))
  = trace w ++ map Blockchain_lookupTransaction txs.
Proof.
  revert w. induction txs as [|id txs IH]; intros w H; simpl; [by rewrite app_nil_r|].
  unfold loadTransaction_promise at 1. rewrite H.
  specialize (IH (mkWorld (this w) (trace w ++ [Blockchain_lookupTransaction id])) H).
  destruct (Array_map _ txs _) as [ps w2]. simpl in *. by rewrite IH, <- app_assoc.
Qed.

(** The promise started for the [i]-th id is the one [loadTransaction]
    returns for it, called after the requests for the ids before it. *)
Lemma Array_map_loadTransaction_lookup txs w i id :
  error (this w) = None ->
  txs !! i = Some id ->
  fst (Array_map (loadTransaction_promise env) txs w) !! i
  = Some (fst (loadTransaction_promise env id
                 (mkWorld (this w)
                    (trace w ++ map Blockchain_lookupTransaction (take i txs))))).
Proof.
  revert w i. induction txs as [|id0 txs IH]; intros w i H Hi; [done|].
  simpl. unfold loadTransaction_promise at 1. rewrite H.
  destruct i as [|i]; simpl in Hi.
  - injection Hi as ->.
    destruct (Array_map _ txs _) as [ps w2]. simpl.
    unfold loadTransaction_promise. simpl. rewrite H. by rewrite app_nil_r.
  - specialize (IH (mkWorld (this w) (trace w ++ [Blockchain_lookupTransaction id0])) i H Hi).
    destruct (Array_map _ txs _) as [ps w2]. simpl in *.
    by rewrite IH, <- app_assoc.
Qed.

Lemma loadTransaction_outcome id w :
  fst (loadTransaction env id w) = outcome (fst (loadTransaction_promise env id w)).
Proof. unfold loadTransaction. by destruct (loadTransaction_promise env id w). Qed.

(** C8: [loadTransactions] fetches every id by a [loadTransaction] call of
    its own: with the guard passed it asks the backend for each id of the
    list, in order, whatever the other lookups answer. When the
    [loadTransaction] call of any id fails, the whole call fails. When the
    call resolves, its result has exactly one transaction per id, at the
    position of the id, and it is the transaction [loadTransaction]
    returned for that id: no id is left out. *)
Theorem loadTransactions_all_or_nothing w txs :
  (error (this w) = None ->
   trace (snd (loadTransactions env txs w))
   = trace w ++ map Blockchain_lookupTransaction txs)
  /\ (forall i id e',
        txs !! i = Some id ->
        fst (loadTransaction env id
               (mkWorld (this w) (trace w ++ map Blockchain_lookupTransaction (take i txs))))
        = Err e' ->
        exists e, fst (loadTransactions env txs w) = Err e)
  /\ (forall l,
        fst (loadTransactions env txs w) = Ok l ->
        length l = length txs
        /\ forall i id,
             txs !! i = Some id ->
             exists tx,
               l !! i = Some tx
               /\ fst (loadTransaction env id
                         (mkWorld (this w)
                            (trace w ++ map Blockchain_lookupTransaction (take i txs))))
                  = Ok tx).
Proof.
  destruct (error (this w)) as [e0|] eqn:He.
  { unfold loadTransactions, bind, error_guard. rewrite He. simpl.
    split; [done|]. split; [by eexists | done]. }
  pose proof (Array_map_loadTransaction_trace txs w He) as Ht.
  pose proof (fun i id => Array_map_loadTransaction_lookup txs w i id He) as Hl.
  unfold loadTransactions, bind, error_guard, Promise_all. rewrite He.
  destruct (Array_map (loadTransaction_promise env) txs w) as [ps w'] eqn:E. simpl in *.
  split; [done|]. split.
  - intros i id e' Hi Hf. rewrite loadTransaction_outcome in Hf.
    pose proof (list_elem_of_lookup_2 _ _ _ (Hl i id Hi)) as Hin.
    destruct (first_rejection_Exists ps) as (t & e & ->); [|by eexists].
    apply List.Exists_exists. eexists. split; [by apply list_elem_of_In|].
    unfold is_rejected. by rewrite Hf.
  - intros l. destruct (first_rejection ps) as [[t e]|] eqn:Hf; [done|].
    intros [= <-]. pose proof (fulfilled_all ps Hf) as HF. split.
    + rewrite <- (Forall2_length _ _ _ HF).
      pose proof (Array_map_length (loadTransaction_promise env) txs w) as Hlen.
      by rewrite E in Hlen.
    + intros i id Hi.
      destruct (Forall2_lookup_l _ _ _ _ _ HF (Hl i id Hi)) as (tx & Htx & Ho).
      exists tx. split; [done|]. by rewrite loadTransaction_outcome.
Qed.

(** C10: with the error field unset, [loadTransactions([])] resolves with
    the empty array and the world is as before: no transaction was looked
    up. *)
Theorem loadTransactions_empty w :
  error (this w) = None -> loadTransactions env [] w = (Ok [], w).
Proof.
  intros H. unfold loadTransactions, bind, error_guard. by rewrite H.
Qed.

(** ** Sessions and the error channel *)

Lemma evolves_settled b b' sid en :
  evolves b b' ->
  ending <$> sessions (discovery b) !! sid = Some en ->
  en <> Pending ->
  ending <$> sessions (discovery b') !! sid = Some en.
Proof.
  intros Hev H Hne.
  destruct (sessions (discovery b) !! sid) as [s|] eqn:Hs; [|done].
  simpl in H. injection H as <-.
  destruct (evolves_sessions _ _ Hev sid s Hs) as (s' & -> & Hk). simpl.
  by rewrite Hk.
Qed.

Lemma outcome_of_ending sid w en :
  session_ending sid w = Some en ->
  loadAccountInfo_outcome sid w
  = match en with
    | Pending => None
    | Resolved info => Some (Ok info)
    | Rejected e => Some (Err e)
    end.
Proof.
  unfold session_ending, loadAccountInfo_outcome, loadAccountInfo_resume.
  destruct (sessions (discovery (this w)) !! sid) as [s|]; [|done].
  simpl. intros [= ->]. by destruct en.
Qed.

Lemma run_handler_session e h b sid s :
  sessions (discovery b) !! sid = Some s ->
  exists s1, sessions (discovery (run_handler e h b)) !! sid = Some s1
    /\ ending s1 = if decide (h = dispose_discovery sid)
                   then ending (Session_dispose e s) else ending s.
Proof.
  intros H. destruct h as [|sid'|mid]; simpl.
  - by exists s.
  - destruct (decide (sid' = sid)) as [->|Hne].
    + exists (Session_dispose e s). rewrite list_lookup_alter_eq, H.
      split; [done|]. by rewrite decide_True.
    + exists s. rewrite list_lookup_alter_ne by done. split; [done|].
      rewrite decide_False; [done|]. by intros [= ?].
  - by exists s.
Qed.

(** Delivering [e] to listeners that include the one of session [sid]
    rejects its ending with [e], unless the ending was settled before. *)
Lemma foldl_run_handler_rejects e l b sid s :
  sessions (discovery b) !! sid = Some s ->
  ending s = Pending \/ ending s = Rejected e ->
  dispose_discovery sid ∈ l ->
  ending <$> sessions (discovery (foldl (fun b' h => run_handler e h b') b l)) !! sid
  = Some (Rejected e).
Proof.
  revert b s. induction l as [|h l IH]; intros b s Hs Hen Hin;
    [by apply elem_of_nil in Hin|].
  simpl. destruct (run_handler_session e h b sid s Hs) as (s1 & Hs1 & Hen1).
  assert (ending s1 = Pending \/ ending s1 = Rejected e) as Hen1'.
  { rewrite Hen1. case_decide; [|done]. simpl. right. by destruct Hen as [-> | ->]. }
  apply elem_of_cons in Hin as [<-|Hin]; [|by eapply IH].
  rewrite decide_True in Hen1 by done.
  apply (evolves_settled (run_handler e (dispose_discovery sid) b)).
  - apply foldl_run_handler_evolves.
  - rewrite Hs1. simpl. rewrite Hen1. simpl. by destruct Hen as [-> | ->].
  - done.
Qed.

(** What [loadAccountInfo] leaves behind when it passes the guard. *)
Lemma loadAccountInfo_start_Ok xpub data ci w sid w1 :
  loadAccountInfo_start xpub data ci w = (Ok sid, w1) ->
  sid = length (sessions (discovery (this w)))
  /\ dispose_discovery sid ∈ errors (blockchain (this w1))
  /\ session_ending sid w1 = Some Pending
  /\ length (sessions (discovery (this w1))) = S sid.
Proof.
  intros H.
  destruct (loadAccountInfo_start_this xpub data ci w) as [(e & _ & He)|(_ & Hf & Ht)].
  { by rewrite H in He. }
  rewrite H in Hf, Ht. simpl in Hf, Ht. injection Hf as ->.
  unfold session_ending. rewrite Ht. simpl. split; [done|]. split; [set_solver|].
  split; [by rewrite lookup_app_r, Nat.sub_diag | rewrite length_app; simpl; lia].
Qed.

(** C6, as the code has it: the listener that [loadAccountInfo] attaches to
    the error channel for its session is never detached: after any history,
    also once the session has ended, it is still among the listeners. When
    it is called it touches its own session only, and every session opened
    later is another session. *)
Theorem session_listener_stays_attached xpub data ci w sid w1 acts :
  loadAccountInfo_start xpub data ci w = (Ok sid, w1) ->
  dispose_discovery sid ∈ errors (blockchain (this (run env coins acts w1)))
  /\ (forall e b sid', sid' <> sid ->
        sessions (discovery (run_handler e (dispose_discovery sid) b)) !! sid'
        = sessions (discovery b) !! sid')
  /\ (forall xpub' data' ci' sid' w2,
        loadAccountInfo_start xpub' data' ci' (run env coins acts w1) = (Ok sid', w2) ->
        sid' <> sid).
Proof.
  intros H. destruct (loadAccountInfo_start_Ok _ _ _ _ _ _ H) as (_ & Hin & _ & Hlen).
  split; [|split].
  - eapply evolves_keeps_listener; [apply run_evolves | done].
  - intros e b sid' Hne. simpl. by rewrite list_lookup_alter_ne.
  - intros xpub' data' ci' sid' w2 H'.
    destruct (loadAccountInfo_start_Ok _ _ _ _ _ _ H') as (-> & _).
    pose proof (evolves_length _ _ (run_evolves acts w1)). lia.
Qed.

(** C9: take the session [sid] that a [loadAccountInfo] call waits on and
    any history [pre] after the call. If the ending is still pending when
    the error channel delivers [e], the call fails with [e], whatever
    happens afterwards (a later completion included). If the ending was
    resolved with [info] before the error is delivered, the call returns
    [info]. *)
Theorem backend_error_cancels_open_session xpub data ci w sid w1 pre e post :
  loadAccountInfo_start xpub data ci w = (Ok sid, w1) ->
  (session_ending sid (run env coins pre w1) = Some Pending ->
   loadAccountInfo_outcome sid (run env coins (pre ++ backend_error e :: post) w1) = Some (Err e))
  /\ (forall info,
        session_ending sid (run env coins pre w1) = Some (Resolved info) ->
        loadAccountInfo_outcome sid (run env coins (pre ++ backend_error e :: post) w1)
        = Some (Ok info)).
Proof.
  intros H. destruct (loadAccountInfo_start_Ok _ _ _ _ _ _ H) as (_ & Hin & _ & _).
  rewrite run_app. change (run env coins (backend_error e :: post) (run env coins pre w1))
    with (run env coins post (step env coins (backend_error e) (run env coins pre w1))).
  split.
  - intros Hp. rewrite (outcome_of_ending _ _ (Rejected e)); [done|].
    apply (evolves_settled (this (step env coins (backend_error e) (run env coins pre w1))));
      [apply run_evolves | | done].
    unfold session_ending in Hp.
    destruct (sessions (discovery (this (run env coins pre w1))) !! sid) as [s|] eqn:Hs; [|done].
    simpl in Hp. injection Hp as Hp.
    apply (foldl_run_handler_rejects e _ _ sid s); [done | by left |].
    eapply evolves_keeps_listener; [apply run_evolves | done].
  - intros info Hr. rewrite (outcome_of_ending _ _ (Resolved info)); [done|].
    apply (evolves_settled (this (run env coins pre w1))); [|done|done].
    eapply evolves_trans; [apply step_evolves | apply run_evolves].
Qed.

(** * Further properties of the class *)

(** ** Steps, by shape *)

Lemma step_has_shape a w : step_shape a (this w) (this (step env coins a w)).
Proof.
  destruct a as [e|sid status|sid info|sid|mid|sid|ci|xpub data ci|xpub data ci
                 |id|txs| |txBytes|txHex| ]; simpl.
  - by eapply shape_emit.
  - destruct (sessions (discovery (this w)) !! sid) as [s|]; [|constructor].
    destruct (_ && _); constructor.
  - apply shape_session; [done|done|]. apply Session_finish_settled.
  - apply shape_session; [done|done|]. apply Session_dispose_settled.
  - by apply shape_monitor.
  - unfold loadAccountInfo_resume.
    destruct (sessions (discovery (this w)) !! sid) as [s|]; [|constructor].
    destruct (ending s); [apply shape_same | | apply shape_same].
    simpl. by apply shape_session.
  - destruct (loadCoinInfo_this ci w) as [->|[z ->]]; [constructor | by apply shape_zcash].
  - destruct (loadAccountInfo_start_this xpub data ci w)
      as [(e & _ & ->)|(He & _ & ->)]; [constructor | by apply shape_start].
  - destruct (monitorAccountActivity_this xpub data ci w)
      as [(e & _ & ->)|(He & _ & ->)]; [constructor | by apply shape_monitor_start].
  - rewrite loadTransaction_this. constructor.
  - rewrite loadTransactions_this. constructor.
  - rewrite loadCurrentHeight_this. constructor.
  - rewrite sendTransaction_this. constructor.
  - rewrite sendTransactionHex_this. constructor.
  - constructor.
Qed.

Lemma run_handler_frame e h b :
  options (run_handler e h b) = options b
  /\ blockchain (run_handler e h b) = blockchain b
  /\ length (sessions (discovery (run_handler e h b))) = length (sessions (discovery b))
  /\ length (monitors (discovery (run_handler e h b))) = length (monitors (discovery b)).
Proof.
  destruct h as [|sid|mid]; simpl; repeat split; try done.
  - by rewrite length_alter.
  - by rewrite length_insert.
Qed.

Lemma foldl_run_handler_frame e l b :
  options (foldl (fun b' h => run_handler e h b') b l) = options b
  /\ blockchain (foldl (fun b' h => run_handler e h b') b l) = blockchain b
  /\ length (sessions (discovery (foldl (fun b' h => run_handler e h b') b l)))
     = length (sessions (discovery b))
  /\ length (monitors (discovery (foldl (fun b' h => run_handler e h b') b l)))
     = length (monitors (discovery b)).
Proof.
  revert b. induction l as [|h l IH]; intros b; simpl; [done|].
  destruct (IH (run_handler e h b)) as (-> & -> & -> & ->). apply run_handler_frame.
Qed.

(** ** Who writes which field *)

Lemma step_keeps_error_field a w :
  is_backend_error a = false -> error (this (step env coins a w)) = error (this w).
Proof.
  intros Ha. destruct (step_has_shape a w) as [|e ->| | | | |]; try done.
Qed.

(** X1: the error field is written by the error channel only. Over a history
    in which the backend reports no error, whatever methods are called and
    whatever the engine and the caller do, the field keeps its value. *)
Theorem error_field_only_written_by_error_channel acts w :
  Forall (fun a => is_backend_error a = false) acts ->
  error (this (run env coins acts w)) = error (this w).
Proof.
  revert w. induction acts as [|a acts IH]; intros w H; [done|].
  apply Forall_cons in H as [Ha H]. simpl.
  change (error (this (run env coins acts (step env coins a w))) = error (this w)).
  rewrite IH by done. by apply step_keeps_error_field.
Qed.

Lemma step_keeps_options a w :
  options (this (step env coins a w)) = options (this w)
  /\ endpoints (blockchain (this (step env coins a w))) = endpoints (blockchain (this w)).
Proof.
  destruct (step_has_shape a w) as [|e _| | | | |]; try done.
  unfold errors_emit. by destruct (foldl_run_handler_frame e (errors (blockchain (this w))) (this w))
    as (-> & -> & _).
Qed.

(** X2: the options the coordinator was constructed with and the endpoints of
    its backend connection never change, over any history. *)
Theorem options_and_endpoints_never_change acts w :
  options (this (run env coins acts w)) = options (this w)
  /\ endpoints (blockchain (this (run env coins acts w))) = endpoints (blockchain (this w)).
Proof.
  revert w. induction acts as [|a acts IH]; intros w; [done|].
  change (run env coins (a :: acts) w) with (run env coins acts (step env coins a w)).
  destruct (IH (step env coins a w)) as [-> ->]. apply step_keeps_options.
Qed.

Lemma step_keeps_zcash a w :
  is_loadCoinInfo_call a = false ->
  blockchain_zcash (blockchain (this (step env coins a w)))
  = blockchain_zcash (blockchain (this w)).
Proof.
  intros Ha. destruct (step_has_shape a w) as [|e _| | |z Hz| |]; try done.
  - unfold errors_emit.
    by destruct (foldl_run_handler_frame e (errors (blockchain (this w))) (this w))
      as (_ & -> & _).
  - by rewrite Ha in Hz.
Qed.

(** X3: the [zcash] flag of the backend connection is written by
    [loadCoinInfo] only: over a history without a [loadCoinInfo] call it
    keeps its value. *)
Theorem zcash_flag_only_written_by_loadCoinInfo acts w :
  Forall (fun a => is_loadCoinInfo_call a = false) acts ->
  blockchain_zcash (blockchain (this (run env coins acts w)))
  = blockchain_zcash (blockchain (this w)).
Proof.
  revert w. induction acts as [|a acts IH]; intros w H; [done|].
  apply Forall_cons in H as [Ha H].
  change (run env coins (a :: acts) w) with (run env coins acts (step env coins a w)).
  rewrite IH by done. by apply step_keeps_zcash.
Qed.

(** ** Listeners *)

Lemma constructor_wired opts t b t' :
  constructor env BACKEND_NO_URL opts t = (Ok b, t') -> wired b.
Proof.
  unfold constructor. case_decide; [done|]. intros [= <- _].
  split; simpl; [set_solver | lia | lia | done].
Qed.

Lemma step_wired a w : wired (this w) -> wired (this (step env coins a w)).
Proof.
  intros [Hs Hd Hm Hc].
  destruct (step_has_shape a w) as [|e _|sid f _ _ _|mid _ _|z _|_ _ _|_ _ _].
  - done.
  - unfold errors_emit.
    destruct (foldl_run_handler_frame e (errors (blockchain (this w))) (this w))
      as (_ & Hb & Hls & Hlm).
    split; rewrite ?Hb, ?Hls, ?Hlm; done.
  - split; simpl; rewrite ?length_alter; done.
  - split; simpl; rewrite ?length_insert; done.
  - done.
  - split; simpl; rewrite ?length_app; simpl.
    + set_solver.
    + intros sid Hlt. apply elem_of_app.
      destruct (decide (sid = length (sessions (discovery (this w))))) as [->|Hne];
        [right; set_solver | left; apply Hd; lia].
    + intros mid Hlt. apply elem_of_app. left. by apply Hm.
    + lia.
  - split; simpl; rewrite ?length_app; simpl.
    + set_solver.
    + intros sid Hlt. apply elem_of_app. left. by apply Hd.
    + intros mid Hlt. apply elem_of_app.
      destruct (decide (mid = length (monitors (discovery (this w))))) as [->|Hne];
        [right; set_solver | left; apply Hm; lia].
    + lia.
Qed.

Lemma run_wired acts w : wired (this w) -> wired (this (run env coins acts w)).
Proof.
  revert w. induction acts as [|a acts IH]; intros w H; [done|].
  apply (IH (step env coins a w)). by apply step_wired.
Qed.

(** X4: nothing is ever detached from the error channel. On a constructed
    coordinator, after any history, the channel has one listener for the
    error field plus one for every discovery session and every activity
    stream opened so far, ended or not. *)
Theorem listeners_grow_with_sessions opts t b t' acts :
  constructor env BACKEND_NO_URL opts t = (Ok b, t') ->
  length (errors (blockchain (this (run env coins acts (mkWorld b t')))))
  = 1 + length (sessions (discovery (this (run env coins acts (mkWorld b t')))))
    + length (monitors (discovery (this (run env coins acts (mkWorld b t'))))).
Proof.
  intros H. apply wired_count, (run_wired acts (mkWorld b t')).
  by eapply constructor_wired.
Qed.

(** ** What a backend error does to everything that is open *)

Lemma run_handler_monitor e h b mid d :
  monitors (discovery b) !! mid = Some d ->
  monitors (discovery (run_handler e h b)) !! mid
  = Some (if decide (h = dispose_monitor mid) then true else d).
Proof.
  intros H. destruct h as [|sid|mid']; simpl; try done.
  destruct (decide (mid' = mid)) as [->|Hne].
  - rewrite decide_True by done. apply list_lookup_insert_eq. by eapply lookup_lt_Some.
  - rewrite decide_False by (by intros [= ?]). by rewrite list_lookup_insert_ne.
Qed.

Lemma foldl_run_handler_monitor e l b mid d :
  monitors (discovery b) !! mid = Some d ->
  monitors (discovery (foldl (fun b' h => run_handler e h b') b l)) !! mid
  = Some (d || bool_decide (dispose_monitor mid ∈ l)).
Proof.
  revert b d. induction l as [|h l IH]; intros b d H.
  - rewrite bool_decide_eq_false_2 by apply not_elem_of_nil. by rewrite orb_false_r.
  - change (foldl (fun b' h0 => run_handler e h0 b') b (h :: l))
      with (foldl (fun b' h0 => run_handler e h0 b') (run_handler e h b) l).
    rewrite (IH _ _ (run_handler_monitor e h b mid d H)). f_equal.
    destruct (decide (h = dispose_monitor mid)) as [->|Hh].
    + rewrite (bool_decide_eq_true_2 (_ ∈ _ :: _)) by (apply elem_of_cons; by left).
      by rewrite orb_true_r.
    + f_equal. apply bool_decide_ext. rewrite elem_of_cons.
      split; [by right | by intros [?|?]].
Qed.

(** X5: on a constructed coordinator, after any history, one error delivered
    by the backend leaves no discovery session pending and no activity
    stream undisposed. *)
Theorem backend_error_tears_down_everything opts t b t' acts e :
  constructor env BACKEND_NO_URL opts t = (Ok b, t') ->
  (forall sid s,
     sessions (discovery (this (step env coins (backend_error e)
                                  (run env coins acts (mkWorld b t'))))) !! sid = Some s ->
     ending s <> Pending)
  /\ (forall mid d,
        monitors (discovery (this (step env coins (backend_error e)
                                     (run env coins acts (mkWorld b t'))))) !! mid = Some d ->
        d = true).
Proof.
  intros Hc.
  pose proof (run_wired acts (mkWorld b t') (constructor_wired _ _ _ _ Hc)) as [_ Hd Hm _].
  simpl. unfold errors_emit.
  set (b0 := this (run env coins acts (mkWorld b t'))) in *.
  destruct (foldl_run_handler_frame e (errors (blockchain b0)) b0) as (_ & _ & Hls & Hlm).
  split.
  - intros sid s' Hs'.
    assert (sid < length (sessions (discovery b0))) as Hlt.
    { rewrite <- Hls. by eapply lookup_lt_Some. }
    destruct (lookup_lt_is_Some_2 _ _ Hlt) as [s Hs].
    destruct (ending s) eqn:Hen.
    + pose proof (foldl_run_handler_rejects e _ b0 sid s Hs (or_introl Hen) (Hd _ Hlt)) as Hr.
      rewrite Hs' in Hr. simpl in Hr. injection Hr as ->. done.
    + pose proof (evolves_settled b0 _ sid (ending s)
                    (foldl_run_handler_evolves e (errors (blockchain b0)) b0)) as Hr.
      rewrite Hs, Hs' in Hr. simpl in Hr. rewrite Hen in Hr.
      specialize (Hr eq_refl ltac:(done)). injection Hr as ->. done.
    + pose proof (evolves_settled b0 _ sid (ending s)
                    (foldl_run_handler_evolves e (errors (blockchain b0)) b0)) as Hr.
      rewrite Hs, Hs' in Hr. simpl in Hr. rewrite Hen in Hr.
      specialize (Hr eq_refl ltac:(done)). injection Hr as ->. done.
  - intros mid d' Hd'.
    assert (mid < length (monitors (discovery b0))) as Hlt.
    { rewrite <- Hlm. by eapply lookup_lt_Some. }
    destruct (lookup_lt_is_Some_2 _ _ Hlt) as [d Hdd].
    rewrite (foldl_run_handler_monitor e _ b0 mid d Hdd) in Hd'.
    rewrite bool_decide_eq_true_2 in Hd' by by apply Hm.
    rewrite orb_true_r in Hd'. by injection Hd' as <-.
Qed.

Lemma run_keeps_error_field acts w :
  Forall (fun a => is_backend_error a = false) acts ->
  error (this (run env coins acts w)) = error (this w).
Proof.
  revert w. induction acts as [|a acts IH]; intros w H; [done|].
  apply Forall_cons in H as [Ha H].
  change (run env coins (a :: acts) w) with (run env coins acts (step env coins a w)).
  rewrite IH by done. by apply step_keeps_error_field.
Qed.

(** X6: on a constructed coordinator, once the backend has reported [e] and
    as long as it reports nothing further, every gated method fails with
    [e] and does nothing, whatever else happened before or in between. *)
Theorem gated_methods_fail_with_latest_error opts t b t' acts e acts' w :
  constructor env BACKEND_NO_URL opts t = (Ok b, t') ->
  Forall (fun a => is_backend_error a = false) acts' ->
  w = run env coins acts' (step env coins (backend_error e)
                             (run env coins acts (mkWorld b t'))) ->
  (forall xpub data ci, loadAccountInfo_start xpub data ci w = (Err e, w))
  /\ (forall xpub data ci, monitorAccountActivity xpub data ci w = (Err e, w))
  /\ (forall id, loadTransaction env id w = (Err e, w))
  /\ (forall txs, loadTransactions env txs w = (Err e, w))
  /\ loadCurrentHeight env w = (Err e, w)
  /\ (forall txBytes, sendTransaction env txBytes w = (Err e, w))
  /\ (forall txHex, sendTransactionHex env txHex w = (Err e, w)).
Proof.
  intros Hc Hacts ->.
  set (w := run env coins acts' _).
  assert (error (this w) = Some e) as H.
  { unfold w. rewrite run_keeps_error_field by done. simpl.
    apply foldl_run_handler_sets_error.
    apply (evolves_keeps_listener _ b); [apply (run_evolves acts (mkWorld b t'))|].
    by eapply constructor_attaches_setError. }
  repeat split; intros;
    unfold loadAccountInfo_start, monitorAccountActivity, loadTransaction,
      loadTransaction_promise, loadTransactions, loadCurrentHeight, sendTransaction,
      sendTransactionHex, bind, error_guard;
    by rewrite H.
Qed.

(** ** The end of a discovery session *)

(** X7: while the ending of a session is pending the [loadAccountInfo] call
    waiting on it has no outcome. The first event that settles the ending
    decides the outcome for good: if the engine completes the session with
    [info] the call returns [info], and if the caller invokes the disposer
    it was handed the call fails with [Error('Interrupted by user')],
    whatever happens afterwards. *)
Theorem first_terminal_event_decides sid w info post :
  session_ending sid w = Some Pending ->
  loadAccountInfo_outcome sid w = None
  /\ loadAccountInfo_outcome sid (run env coins (engine_finish sid info :: post) w)
     = Some (Ok info)
  /\ loadAccountInfo_outcome sid (run env coins (caller_dispose sid :: post) w)
     = Some (Err (mkError "Interrupted by user")).
Proof.
  intros Hp. split; [by rewrite (outcome_of_ending _ _ _ Hp)|].
  unfold session_ending in Hp.
  destruct (sessions (discovery (this w)) !! sid) as [s|] eqn:Hs; [|done].
  simpl in Hp. injection Hp as Hp.
  change (run env coins (engine_finish sid info :: post) w)
    with (run env coins post (step env coins (engine_finish sid info) w)).
  change (run env coins (caller_dispose sid :: post) w)
    with (run env coins post (step env coins (caller_dispose sid) w)).
  split.
  - rewrite (outcome_of_ending _ _ (Resolved info)); [done|].
    apply (evolves_settled (this (step env coins (engine_finish sid info) w)));
      [apply run_evolves | | done].
    simpl. by rewrite list_lookup_alter_eq, Hs; simpl; rewrite Hp.
  - rewrite (outcome_of_ending _ _ (Rejected (mkError "Interrupted by user"))); [done|].
    apply (evolves_settled (this (step env coins (caller_dispose sid) w)));
      [apply run_evolves | | done].
    simpl. by rewrite list_lookup_alter_eq, Hs; simpl; rewrite Hp.
Qed.

(** ** Progress *)

Lemma run_progress sid statuses w s :
  sessions (discovery (this w)) !! sid = Some s ->
  stream_relayed s = true -> stream_disposed s = false -> ending s = Pending ->
  run env coins (map (engine_progress sid) statuses) w
  = mkWorld (this w) (trace w ++ map (Caller_progress sid) statuses).
Proof.
  intros Hs Hr Hd He. revert w Hs.
  induction statuses as [|st statuses IH]; intros w Hs; simpl.
  { rewrite app_nil_r. by destruct w. }
  change (run env coins (engine_progress sid st :: map (engine_progress sid) statuses) w)
    with (run env coins (map (engine_progress sid) statuses)
            (step env coins (engine_progress sid st) w)).
  simpl. rewrite Hs, Hr, Hd, He. simpl. rewrite IH by done. simpl.
  by rewrite <- app_assoc.
Qed.

(** X8: after [loadAccountInfo] passed the guard, the progress events the
    engine emits for its session reach the caller's callback one by one, in
    the order of emission, and change nothing in the coordinator. *)
Theorem progress_is_relayed_in_order xpub data ci w sid w1 statuses :
  loadAccountInfo_start xpub data ci w = (Ok sid, w1) ->
  run env coins (map (engine_progress sid) statuses) w1
  = mkWorld (this w1) (trace w1 ++ map (Caller_progress sid) statuses).
Proof.
  intros H.
  destruct (loadAccountInfo_start_this xpub data ci w) as [(e & _ & He)|(_ & Hf & Ht)].
  { by rewrite H in He. }
  rewrite H in Hf, Ht. simpl in Hf, Ht. injection Hf as ->.
  apply (run_progress _ _ _ (mkSession false true Pending)); try done.
  rewrite Ht. simpl. by rewrite lookup_app_r, Nat.sub_diag.
Qed.

(** ** Activity streams *)

Lemma step_monitor a w mid d :
  monitors (discovery (this w)) !! mid = Some d ->
  exists d', monitors (discovery (this (step env coins a w))) !! mid = Some d'
             /\ (d = true -> d' = true).
Proof.
  intros H.
  destruct (step_has_shape a w) as [|e _|sid f _ _ _|mid' _ _|z _|_ _ _|_ _ _]; simpl.
  - by exists d.
  - unfold errors_emit. rewrite (foldl_run_handler_monitor e _ _ mid d H).
    eexists. split; [done|]. by intros ->.
  - by exists d.
  - destruct (decide (mid' = mid)) as [->|Hne].
    + exists true. split; [|done]. apply list_lookup_insert_eq. by eapply lookup_lt_Some.
    + exists d. by rewrite list_lookup_insert_ne.
  - by exists d.
  - by exists d.
  - exists d. split; [|done]. by apply lookup_app_l_Some.
Qed.

Lemma run_monitor acts w mid d :
  monitors (discovery (this w)) !! mid = Some d ->
  exists d', monitors (discovery (this (run env coins acts w))) !! mid = Some d'
             /\ (d = true -> d' = true).
Proof.
  revert w d. induction acts as [|a acts IH]; intros w d H; [by exists d|].
  change (run env coins (a :: acts) w) with (run env coins acts (step env coins a w)).
  destruct (step_monitor a w mid d H) as (d1 & H1 & K1).
  destruct (IH _ _ H1) as (d2 & H2 & K2). exists d2. split; [done|]. auto.
Qed.

(** X9: the stream [monitorAccountActivity] returns is not disposed when it
    is returned, and it is disposed from the first error the backend
    reports afterwards, for good. *)
Theorem activity_stream_disposed_on_backend_error xpub data ci w mid w1 pre e post :
  monitorAccountActivity xpub data ci w = (Ok mid, w1) ->
  monitors (discovery (this w1)) !! mid = Some false
  /\ monitors (discovery (this (run env coins (pre ++ backend_error e :: post) w1))) !! mid
     = Some true.
Proof.
  intros H.
  destruct (monitorAccountActivity_this xpub data ci w) as [(e0 & _ & He)|(_ & Hf & Ht)].
  { by rewrite H in He. }
  rewrite H in Hf, Ht. simpl in Hf, Ht. injection Hf as ->.
  assert (monitors (discovery (this w1)) !! length (monitors (discovery (this w))) = Some false)
    as H0.
  { rewrite Ht. simpl. by rewrite lookup_app_r, Nat.sub_diag. }
  split; [done|].
  rewrite run_app.
  change (run env coins (backend_error e :: post) (run env coins pre w1))
    with (run env coins post (step env coins (backend_error e) (run env coins pre w1))).
  destruct (run_monitor pre w1 _ _ H0) as (d1 & H1 & _).
  assert (monitors (discovery (this (step env coins (backend_error e) (run env coins pre w1))))
            !! length (monitors (discovery (this w))) = Some true) as H2.
  { simpl. unfold errors_emit. rewrite (foldl_run_handler_monitor e _ _ _ d1 H1).
    rewrite bool_decide_eq_true_2; [by rewrite orb_true_r|].
    apply (evolves_keeps_listener _ (this w1)); [apply run_evolves|].
    rewrite Ht. simpl. set_solver. }
  destruct (run_monitor post _ _ _ H2) as (d3 & H3 & K3). by rewrite H3, K3.
Qed.

(** ** Construction with urls *)

(** X10: with at least one url the constructor succeeds. The coordinator it
    returns keeps the options, has no error, no session and no stream, and
    exactly one listener on the error channel, the one that writes the
    error field. It creates the worker, then the backend connection on the
    given urls, requests the wasm file only where WebAssembly exists, and
    creates the discovery engine last. *)
Theorem constructor_succeeds_with_urls opts t :
  urls opts <> [] ->
  exists b,
    constructor env BACKEND_NO_URL opts t
    = (Ok b,
       t ++ [new_FastXpubWorker; new_BitcoreBlockchain (urls opts)]
         ++ (if WebAssembly_defined env then [httpRequest_FastXpubWasm] else [])
         ++ [new_WorkerDiscovery])
    /\ options b = opts
    /\ error b = None
    /\ endpoints (blockchain b) = urls opts
    /\ errors (blockchain b) = [setError_bound]
    /\ sessions (discovery b) = []
    /\ monitors (discovery b) = [].
Proof.
  intros Hne. unfold constructor.
  destruct (urls opts) as [|url rest] eqn:Hu; [done|].
  case_decide as Hlt; [simpl in Hlt; lia|].
  eexists. split.
  { f_equal. destruct (WebAssembly_defined env); by rewrite <- !app_assoc. }
  done.
Qed.

(** ** [loadCoinInfo] *)

(** X11: [loadCoinInfo] writes nothing but the [zcash] flag: the error field,
    the options, the listeners and the endpoints of the connection, the
    sessions and the streams are as before. When it fails it has written
    nothing at all. *)
Theorem loadCoinInfo_writes_only_zcash ci w :
  (forall e, fst (loadCoinInfo env coins ci w) = Err e ->
             this (snd (loadCoinInfo env coins ci w)) = this w)
  /\ error (this (snd (loadCoinInfo env coins ci w))) = error (this w)
  /\ options (this (snd (loadCoinInfo env coins ci w))) = options (this w)
  /\ discovery (this (snd (loadCoinInfo env coins ci w))) = discovery (this w)
  /\ errors (blockchain (this (snd (loadCoinInfo env coins ci w))))
     = errors (blockchain (this w))
  /\ endpoints (blockchain (this (snd (loadCoinInfo env coins ci w))))
     = endpoints (blockchain (this w)).
Proof.
  split.
  - intros e.
    unfold loadCoinInfo, request, bind, effect, await, ret, throw, modify, with_this. simpl.
    destruct (socket_promise env (trace w)); [|done]. simpl.
    destruct (getInfo env (trace w ++ _)); [|done]. simpl.
    destruct ci as [info|]; simpl; [done|].
    destruct (lookupBlockHash env _ 0); [|done]. simpl.
    by destruct (getCoinInfoByHash coins _ _).
  - by destruct (loadCoinInfo_this ci w) as [->|[z ->]].
Qed.

(** X12: [loadCoinInfo] passes on the failure of whatever it awaits and asks
    nothing further: a rejected socket promise before any request, a failed
    [getInfo] before the lookup of block 0, and a failed lookup of block 0. *)
Theorem loadCoinInfo_propagates_failures w e :
  (forall ci,
     socket_promise env (trace w) = Err e ->
     loadCoinInfo env coins ci w = (Err e, w))
  /\ (forall ci,
        socket_promise env (trace w) = Ok tt ->
        getInfo env (trace w ++ [Socket_send_getInfo]) = Err e ->
        loadCoinInfo env coins ci w
        = (Err e, mkWorld (this w) (trace w ++ [Socket_send_getInfo])))
  /\ (forall ni,
        socket_promise env (trace w) = Ok tt ->
        getInfo env (trace w ++ [Socket_send_getInfo]) = Ok ni ->
        lookupBlockHash env
          ((trace w ++ [Socket_send_getInfo]) ++ [Blockchain_lookupBlockHash 0]) 0 = Err e ->
        loadCoinInfo env coins None w
        = (Err e,
           mkWorld (this w)
             ((trace w ++ [Socket_send_getInfo]) ++ [Blockchain_lookupBlockHash 0]))).
Proof.
  repeat split; intros;
    unfold loadCoinInfo, request, bind, effect, await, ret, throw, modify, with_this; simpl;
    repeat match goal with H : _ = _ |- _ => rewrite H; simpl end; done.
Qed.

(** X13: a descriptor handed to [loadCoinInfo] is taken as it is: the genesis
    block is not looked up and the table of known networks is not
    consulted; the only request is [getInfo]. *)
Theorem loadCoinInfo_trusts_supplied_descriptor (coins' : list (@CoinInfo Network)) ci w :
  loadCoinInfo env coins (Some ci) w = loadCoinInfo env coins' (Some ci) w
  /\ (trace (snd (loadCoinInfo env coins (Some ci) w)) = trace w
      \/ trace (snd (loadCoinInfo env coins (Some ci) w)) = trace w ++ [Socket_send_getInfo]).
Proof.
  unfold loadCoinInfo, request, bind, effect, await, ret, throw, modify, with_this. simpl.
  destruct (socket_promise env (trace w)); [|by split; [|left]]. simpl.
  destruct (getInfo env (trace w ++ _)); by split; [|right].
Qed.

(** ** Transactions *)

(** X14: with the error field unset, [loadTransactions] asks the backend for
    every id of the list, in the order of the list, also for the ids that
    follow one whose lookup fails; and it asks nothing else. *)
Theorem loadTransactions_requests_every_id txs w :
  error (this w) = None ->
  trace (snd (loadTransactions env txs w))
  = trace w ++ map Blockchain_lookupTransaction txs.
Proof.
  intros H. pose proof (Array_map_loadTransaction_trace txs w H) as Ht.
  unfold loadTransactions, bind, error_guard. rewrite H.
  by destruct (Array_map _ txs w).
Qed.

(** X15: when [loadTransactions] is rejected although the guard passed, the
    error is the one of a [loadTransaction] it started, and none of the
    rejected ones settled before that one. *)
Theorem loadTransactions_reports_first_rejection txs w e :
  error (this w) = None ->
  fst (loadTransactions env txs w) = Err e ->
  exists p,
    p ∈ fst (Array_map (loadTransaction_promise env) txs w)
    /\ outcome p = Err e
    /\ forall q, q ∈ fst (Array_map (loadTransaction_promise env) txs w) ->
                 is_rejected q -> settledAt p <= settledAt q.
Proof.
  intros H. unfold loadTransactions, bind, error_guard, Promise_all. rewrite H.
  destruct (Array_map _ txs w) as [ps w']. simpl.
  destruct (first_rejection ps) as [[t e']|] eqn:Hf; [|done].
  intros [= ->].
  destruct (first_rejection_earliest ps t e Hf) as [(p & Hin & Ho & <-) Hmin].
  by exists p.
Qed.

(** X16: [loadTransactions] of one id does what [loadTransaction] of that id
    does, and returns its transaction as a list of one. *)
Theorem loadTransactions_singleton id w :
  loadTransactions env [id] w
  = (match fst (loadTransaction env id w) with
     | Ok tx => Ok [tx]
     | Err e => Err e
     end,
     snd (loadTransaction env id w)).
Proof.
  unfold loadTransactions, loadTransaction, bind, error_guard, Promise_all. simpl.
  unfold loadTransaction_promise.
  destruct (error (this w)) eqn:E; simpl; rewrite ?E; [done|]. simpl.
  destruct (outcome (lookupTransaction env _ id)) as [tx|e]; [|done].
  by destruct (fromHex env (hex tx) (tx_zcash tx)).
Qed.


(** ** Broadcasting a buffer *)

Lemma hex_digit_in_alphabet n :
  In (hex_digit n) (String.list_ascii_of_string "0123456789abcdef").
Proof.
  unfold hex_digit. generalize (N.to_nat n). intros k.
  do 16 (destruct k as [|k]; [simpl; tauto|]). simpl. tauto.
Qed.

Lemma hex_digit_inj m n :
  (m < 16)%N -> (n < 16)%N -> hex_digit m = hex_digit n -> m = n.
Proof.
  intros Ha Hb. unfold hex_digit. intros H. apply N2Nat.inj.
  assert (N.to_nat m < 16) as Hi by lia. assert (N.to_nat n < 16) as Hj by lia.
  revert H Hi Hj. generalize (N.to_nat m) (N.to_nat n). intros i j.
  do 16 (destruct i as [|i]; [do 16 (destruct j as [|j]; [simpl; congruence|]); lia|]).
  lia.
Qed.

Lemma Buffer_toString_hex_length bytes :
  String.length (Buffer_toString_hex bytes) = 2 * length bytes.
Proof. induction bytes as [|x bytes IH]; simpl; [done|]. rewrite IH. lia. Qed.

Lemma Buffer_toString_hex_alphabet bytes :
  Forall (fun c => In c (String.list_ascii_of_string "0123456789abcdef"))
    (String.list_ascii_of_string (Buffer_toString_hex bytes)).
Proof.
  induction bytes as [|x bytes IH]; [constructor|].
  cbn [Buffer_toString_hex String.list_ascii_of_string].
  repeat (constructor; [apply hex_digit_in_alphabet|]). exact IH.
Qed.

Lemma Buffer_toString_hex_inj bytes1 bytes2 :
  Buffer_toString_hex bytes1 = Buffer_toString_hex bytes2 -> bytes1 = bytes2.
Proof.
  revert bytes2. induction bytes1 as [|x1 l1 IH]; intros [|x2 l2]; simpl; try done.
  intros [= H1 H2 H3].
  pose proof (Byte.to_N_bounded x1) as B1. pose proof (Byte.to_N_bounded x2) as B2.
  apply hex_digit_inj in H1;
    [|apply N.Div0.div_lt_upper_bound; lia|apply N.Div0.div_lt_upper_bound; lia].
  apply hex_digit_inj in H2; [|by apply N.mod_lt|by apply N.mod_lt].
  assert (Byte.to_N x1 = Byte.to_N x2) as Hn.
  { rewrite (N.Div0.div_mod (Byte.to_N x1) 16), (N.Div0.div_mod (Byte.to_N x2) 16).
    congruence. }
  f_equal; [|by apply IH].
  pose proof (Byte.of_to_N x1) as E1. pose proof (Byte.of_to_N x2) as E2.
  rewrite Hn in E1. rewrite E1 in E2. by injection E2.
Qed.

(** X18: [sendTransaction] of a buffer does what [sendTransactionHex] does on
    its hex encoding, which has two characters per byte, all of them digits
    or lower-case letters from a to f. *)
Theorem sendTransaction_is_sendTransactionHex_of_hex txBytes w :
  sendTransaction env txBytes w = sendTransactionHex env (Buffer_toString_hex txBytes) w
  /\ String.length (Buffer_toString_hex txBytes) = 2 * length txBytes
  /\ Forall (fun c => In c (String.list_ascii_of_string "0123456789abcdef"))
       (String.list_ascii_of_string (Buffer_toString_hex txBytes)).
Proof.
  split; [done|].
  split; [apply Buffer_toString_hex_length | apply Buffer_toString_hex_alphabet].
Qed.

(** X19: with the error field unset, what [sendTransaction] asks the backend
    to broadcast determines the buffer: two buffers that lead to the same
    request are the same buffer. *)
Theorem sendTransaction_request_determines_buffer txBytes1 txBytes2 w :
  error (this w) = None ->
  trace (snd (sendTransaction env txBytes1 w)) = trace (snd (sendTransaction env txBytes2 w)) ->
  txBytes1 = txBytes2.
Proof.
  intros H. unfold sendTransaction, request, bind, error_guard, effect, await.
  rewrite H. simpl.
  intros [= Heq]%app_inv_head. by apply Buffer_toString_hex_inj.
Qed.

End Properties.

(** * The properties on the concrete coordinator *)

Example fresh_is_constructed :
  constructor bitcoin_backend no_url one_url [] = (Ok fresh_blockbook, fresh_trace).
Proof. reflexivity. Qed.

Example discovering_is_started :
  loadAccountInfo_start "xpub" None bitcoin fresh = (Ok 0, discovering).
Proof. reflexivity. Qed.

(** ** C1 *)

(** C1 fails as stated: the second error the channel delivers replaces the
    first one in the error field. *)
Lemma second_error_replaces_first :
  error (this (run bitcoin_backend known_coins [backend_error first_failure] fresh))
  = Some first_failure
  /\ error (this (run bitcoin_backend known_coins
                    [backend_error first_failure; backend_error second_failure] fresh))
     = Some second_failure
  /\ second_failure <> first_failure.
Proof. split; [reflexivity|]. split; [reflexivity|]. discriminate. Qed.

Lemma error_field_holds_last_error_witness :
  error (this (step bitcoin_backend known_coins (backend_error second_failure)
                 (run bitcoin_backend known_coins [backend_error first_failure] fresh)))
  = Some second_failure
  /\ is_Some (error (this (run bitcoin_backend known_coins
                             [call_loadCurrentHeight; engine_finish 0 "snapshot"]
                             (step bitcoin_backend known_coins (backend_error second_failure)
                                (run bitcoin_backend known_coins
                                   [backend_error first_failure] fresh))))).
Proof.
  exact (error_field_holds_last_error bitcoin_backend no_url known_coins one_url []
           fresh_blockbook fresh_trace [backend_error first_failure] second_failure
           [call_loadCurrentHeight; engine_finish 0 "snapshot"] eq_refl).
Defined.

(** ** C2 *)

Lemma gated_methods_fail_with_stored_error_witness :
  (forall xpub data ci, loadAccountInfo_start xpub data ci failed = (Err first_failure, failed))
  /\ (forall xpub data ci, monitorAccountActivity xpub data ci failed = (Err first_failure, failed))
  /\ (forall id, loadTransaction bitcoin_backend id failed = (Err first_failure, failed))
  /\ (forall txs, loadTransactions bitcoin_backend txs failed = (Err first_failure, failed))
  /\ loadCurrentHeight bitcoin_backend failed = (Err first_failure, failed)
  /\ (forall txBytes, sendTransaction bitcoin_backend txBytes failed = (Err first_failure, failed))
  /\ (forall txHex, sendTransactionHex bitcoin_backend txHex failed = (Err first_failure, failed)).
Proof.
  exact (gated_methods_fail_with_stored_error bitcoin_backend failed first_failure eq_refl).
Defined.

(** ** C4 *)

Lemma unknown_hash_not_in_table :
  forall info : @CoinInfo string, info ∈ known_coins -> hashGenesisBlock info <> "ff".
Proof.
  intros info H. unfold known_coins in H.
  repeat (apply elem_of_cons in H as [->|H]; [discriminate|]).
  by apply elem_of_nil in H.
Qed.

Lemma loadCoinInfo_not_gated_and_unknown_network_witness :
  fst (loadCoinInfo unknown_backend known_coins None failed)
  = Err (mkError "Failed to load coinInfo ff")
  /\ fst (loadCoinInfo bitcoin_backend known_coins None failed) = Ok tt.
Proof.
  split.
  - exact (proj2 (loadCoinInfo_not_gated_and_unknown_network unknown_backend known_coins failed)
             "getInfo reply" "ff" eq_refl eq_refl eq_refl unknown_hash_not_in_table).
  - reflexivity.
Defined.

(** ** C5 *)

(** C5 fails as stated: after [loadCoinInfo(null)] resolved the network to
    bitcoin, a second call with the zcash descriptor succeeds and switches
    the stored flag. *)
Lemma loadCoinInfo_switches_network :
  fst (loadCoinInfo bitcoin_backend known_coins None fresh) = Ok tt
  /\ blockchain_zcash (blockchain (this (snd (loadCoinInfo bitcoin_backend known_coins None fresh))))
     = Some (zcash bitcoin)
  /\ fst (loadCoinInfo bitcoin_backend known_coins (Some zcash_coin)
            (snd (loadCoinInfo bitcoin_backend known_coins None fresh))) = Ok tt
  /\ blockchain_zcash
       (blockchain (this (snd (loadCoinInfo bitcoin_backend known_coins (Some zcash_coin)
                                 (snd (loadCoinInfo bitcoin_backend known_coins None fresh))))))
     = Some (zcash zcash_coin)
  /\ zcash zcash_coin <> zcash bitcoin.
Proof. repeat (split; [reflexivity|]). discriminate. Qed.

Lemma loadCoinInfo_overwrites_zcash_witness :
  ((exists info,
      (exists ni0 hash,
         getInfo zcash_backend (trace fresh ++ [Socket_send_getInfo]) = Ok ni0
         /\ lookupBlockHash zcash_backend
              ((trace fresh ++ [Socket_send_getInfo]) ++ [Blockchain_lookupBlockHash 0]) 0
            = Ok hash
         /\ getCoinInfoByHash known_coins hash ni0 = Some info)
      /\ this (snd (loadCoinInfo zcash_backend known_coins None fresh))
         = set_blockchain (set_zcash (zcash info) (blockchain (this fresh))) (this fresh))
   /\ fst (loadCoinInfo zcash_backend known_coins (Some bitcoin)
             (snd (loadCoinInfo zcash_backend known_coins None fresh))) = Ok tt
   /\ blockchain_zcash
        (blockchain (this (snd (loadCoinInfo zcash_backend known_coins (Some bitcoin)
                                  (snd (loadCoinInfo zcash_backend known_coins None fresh))))))
      = Some false)
  /\ ((exists info,
         info = bitcoin
         /\ this (snd (loadCoinInfo bitcoin_backend known_coins (Some bitcoin) fresh))
            = set_blockchain (set_zcash (zcash info) (blockchain (this fresh))) (this fresh))
      /\ fst (loadCoinInfo bitcoin_backend known_coins (Some zcash_coin)
                (snd (loadCoinInfo bitcoin_backend known_coins (Some bitcoin) fresh))) = Ok tt
      /\ blockchain_zcash
           (blockchain (this (snd (loadCoinInfo bitcoin_backend known_coins (Some zcash_coin)
                                     (snd (loadCoinInfo bitcoin_backend known_coins
                                             (Some bitcoin) fresh))))))
         = Some true).
Proof.
  split.
  - exact (loadCoinInfo_overwrites_zcash zcash_backend known_coins fresh None bitcoin
             (snd (loadCoinInfo zcash_backend known_coins None fresh))
             "getInfo reply" eq_refl eq_refl eq_refl).
  - exact (loadCoinInfo_overwrites_zcash bitcoin_backend known_coins fresh (Some bitcoin)
             zcash_coin (snd (loadCoinInfo bitcoin_backend known_coins (Some bitcoin) fresh))
             "getInfo reply" eq_refl eq_refl eq_refl).
Defined.

(** On a backend that serves zcash, [loadCoinInfo(null)] stores the flag of
    the zcash entry of the table. *)
Example loadCoinInfo_resolves_zcash :
  loadCoinInfo zcash_backend known_coins None fresh
  = (Ok tt,
     mkWorld (set_blockchain (set_zcash true (blockchain (this fresh))) (this fresh))
       (fresh_trace ++ [Socket_send_getInfo; Blockchain_lookupBlockHash 0])).
Proof. reflexivity. Qed.

(** ** C6 *)

(** C6 fails as stated: however the session ends (the engine completes it,
    the caller disposes it, the backend reports an error), the listener
    attached for it is still on the error channel afterwards. *)
Lemma ended_session_keeps_listener :
  (loadAccountInfo_outcome 0
     (run bitcoin_backend known_coins
        [engine_finish 0 "snapshot"; resume_loadAccountInfo 0] discovering)
   = Some (Ok "snapshot")
   /\ errors (blockchain (this (run bitcoin_backend known_coins
                                  [engine_finish 0 "snapshot"; resume_loadAccountInfo 0]
                                  discovering)))
      = [setError_bound; dispose_discovery 0])
  /\ (loadAccountInfo_outcome 0
        (run bitcoin_backend known_coins
           [caller_dispose 0; resume_loadAccountInfo 0] discovering)
      = Some (Err (mkError "Interrupted by user"))
      /\ errors (blockchain (this (run bitcoin_backend known_coins
                                     [caller_dispose 0; resume_loadAccountInfo 0]
                                     discovering)))
         = [setError_bound; dispose_discovery 0])
  /\ (loadAccountInfo_outcome 0
        (run bitcoin_backend known_coins
           [backend_error first_failure; resume_loadAccountInfo 0] discovering)
      = Some (Err first_failure)
      /\ errors (blockchain (this (run bitcoin_backend known_coins
                                     [backend_error first_failure; resume_loadAccountInfo 0]
                                     discovering)))
         = [setError_bound; dispose_discovery 0]).
Proof. repeat split; reflexivity. Qed.

Lemma session_listener_stays_attached_witness :
  dispose_discovery 0
    ∈ errors (blockchain (this (run bitcoin_backend known_coins
                                  [engine_finish 0 "snapshot"; resume_loadAccountInfo 0]
                                  discovering)))
  /\ (forall e (b : @BlockBook string string) sid', sid' <> 0 ->
        sessions (discovery (run_handler e (dispose_discovery 0) b)) !! sid'
        = sessions (discovery b) !! sid')
  /\ (forall xpub' data' ci' sid' w2,
        loadAccountInfo_start xpub' data' ci'
          (run bitcoin_backend known_coins
             [engine_finish 0 "snapshot"; resume_loadAccountInfo 0] discovering)
        = (Ok sid', w2) ->
        sid' <> 0).
Proof.
  exact (session_listener_stays_attached bitcoin_backend known_coins "xpub" None bitcoin
           fresh 0 discovering [engine_finish 0 "snapshot"; resume_loadAccountInfo 0]
           eq_refl).
Defined.

(** ** C7 *)

Lemma discovery_parameters_witness :
  exists mode flag sid,
    trace (snd (loadAccountInfo_start "xpub" None bcash fresh))
    = trace fresh ++ [Discovery_discoverAccount None "xpub" (network bcash) mode flag;
                      Caller_setDisposer sid]
    /\ trace (snd (monitorAccountActivity "xpub" "snapshot" bcash fresh))
       = trace fresh
         ++ [Discovery_monitorAccountActivity "snapshot" "xpub" (network bcash) mode flag]
    /\ (mode = p2sh <-> segwit bcash = true)
    /\ (mode = off <-> segwit bcash = false)
    /\ (flag = true
        <-> exists prefix, cashAddrPrefix bcash = Some prefix /\ prefix <> EmptyString).
Proof.
  exact (discovery_parameters fresh "xpub" None "snapshot" bcash eq_refl).
Defined.

(** The parameters sent for the three descriptors of the table. *)
Example discovery_parameters_of_table :
  trace (snd (loadAccountInfo_start "xpub" None bitcoin fresh))
  = fresh_trace ++ [Discovery_discoverAccount None "xpub" "bitcoin" p2sh false;
                    Caller_setDisposer 0]
  /\ trace (snd (loadAccountInfo_start "xpub" None zcash_coin fresh))
     = fresh_trace ++ [Discovery_discoverAccount None "xpub" "zcash" off false;
                       Caller_setDisposer 0]
  /\ trace (snd (monitorAccountActivity "xpub" "snapshot" bcash fresh))
     = fresh_trace ++ [Discovery_monitorAccountActivity "snapshot" "xpub" "bcash" off true].
Proof. repeat split; reflexivity. Qed.

(** ** C8 *)

Lemma loadTransactions_all_or_nothing_witness :
  trace (snd (loadTransactions bitcoin_backend ["a"; "missing"; "c"] fresh))
  = trace fresh ++ map Blockchain_lookupTransaction ["a"; "missing"; "c"]
  /\ (exists e, fst (loadTransactions bitcoin_backend ["a"; "missing"; "c"] fresh) = Err e)
  /\ length ["a"; "b"; "c"] = length ["a"; "b"; "c"]
  /\ (forall i id,
        ["a"; "b"; "c"] !! i = Some id ->
        exists tx,
          ["a"; "b"; "c"] !! i = Some tx
          /\ fst (loadTransaction bitcoin_backend id
                    (mkWorld (this fresh)
                       (trace fresh
                        ++ map Blockchain_lookupTransaction (take i ["a"; "b"; "c"]))))
             = Ok tx).
Proof.
  split; [|split].
  - exact (proj1 (loadTransactions_all_or_nothing bitcoin_backend fresh
                    ["a"; "missing"; "c"]) eq_refl).
  - exact (proj1 (proj2 (loadTransactions_all_or_nothing bitcoin_backend fresh
                           ["a"; "missing"; "c"]))
             1 "missing" (mkError "tx not found") eq_refl eq_refl).
  - exact (proj2 (proj2 (loadTransactions_all_or_nothing bitcoin_backend fresh
                           ["a"; "b"; "c"])) ["a"; "b"; "c"] eq_refl).
Defined.

(** The scenario of the specification: the lookup of the second of three ids
    fails, and the call fails with that error; the two other lookups were
    made all the same. *)
Example loadTransactions_second_fails :
  loadTransactions bitcoin_backend ["a"; "missing"; "c"] fresh
  = (Err (mkError "tx not found"),
     mkWorld fresh_blockbook
       (fresh_trace ++ [Blockchain_lookupTransaction "a";
                        Blockchain_lookupTransaction "missing";
                        Blockchain_lookupTransaction "c"])).
Proof. reflexivity. Qed.

(** ** C9 *)

Lemma backend_error_cancels_open_session_witness :
  loadAccountInfo_outcome 0
    (run bitcoin_backend known_coins
       ([engine_progress 0 1] ++ backend_error first_failure :: [engine_finish 0 "snapshot"])
       discovering)
  = Some (Err first_failure)
  /\ loadAccountInfo_outcome 0
       (run bitcoin_backend known_coins
          ([engine_finish 0 "snapshot"] ++ backend_error first_failure :: [])
          discovering)
     = Some (Ok "snapshot").
Proof.
  split.
  - exact (proj1 (backend_error_cancels_open_session bitcoin_backend known_coins "xpub" None
                    bitcoin fresh 0 discovering [engine_progress 0 1] first_failure
                    [engine_finish 0 "snapshot"] eq_refl) eq_refl).
  - exact (proj2 (backend_error_cancels_open_session bitcoin_backend known_coins "xpub" None
                    bitcoin fresh 0 discovering [engine_finish 0 "snapshot"] first_failure
                    [] eq_refl) "snapshot" eq_refl).
Defined.

(** ** C10 *)

Lemma loadTransactions_empty_witness :
  loadTransactions bitcoin_backend [] fresh = (Ok [], fresh).
Proof. exact (loadTransactions_empty bitcoin_backend fresh eq_refl). Defined.

(** ** Hex encoding of a buffer *)

Example sendTransaction_sends_hex :
  sendTransaction bitcoin_backend [Byte.x00; Byte.xff; Byte.x1a] fresh
  = (Ok "txid", mkWorld fresh_blockbook (fresh_trace ++ [Blockchain_sendTransaction "00ff1a"])).
Proof. reflexivity. Qed.

(** * The further properties on the concrete coordinator *)

Lemma error_field_only_written_by_error_channel_witness :
  error (this (run bitcoin_backend known_coins
                 [call_loadCurrentHeight; call_loadAccountInfo "xpub" None bitcoin;
                  call_sendTransactionHex "00"; caller_dispose 0]
                 failed))
  = error (this failed).
Proof.
  apply (error_field_only_written_by_error_channel bitcoin_backend known_coins).
  repeat constructor.
Defined.

Lemma zcash_flag_only_written_by_loadCoinInfo_witness :
  blockchain_zcash
    (blockchain (this (run bitcoin_backend known_coins
                         [call_loadAccountInfo "xpub" None zcash_coin;
                          backend_error first_failure; call_loadTransaction "a"]
                         (snd (loadCoinInfo bitcoin_backend known_coins None fresh)))))
  = blockchain_zcash
      (blockchain (this (snd (loadCoinInfo bitcoin_backend known_coins None fresh)))).
Proof.
  apply (zcash_flag_only_written_by_loadCoinInfo bitcoin_backend known_coins).
  repeat constructor.
Defined.

Lemma listeners_grow_with_sessions_witness :
  length (errors (blockchain (this (run bitcoin_backend known_coins
                                      [call_loadAccountInfo "xpub" None bitcoin;
                                       engine_finish 0 "snapshot"; resume_loadAccountInfo 0;
                                       call_monitorAccountActivity "xpub" "snapshot" bitcoin;
                                       caller_dispose_monitor 0]
                                      (mkWorld fresh_blockbook fresh_trace)))))
  = 1 + length (sessions (discovery (this (run bitcoin_backend known_coins
                                             [call_loadAccountInfo "xpub" None bitcoin;
                                              engine_finish 0 "snapshot";
                                              resume_loadAccountInfo 0;
                                              call_monitorAccountActivity "xpub" "snapshot"
                                                bitcoin;
                                              caller_dispose_monitor 0]
                                             (mkWorld fresh_blockbook fresh_trace)))))
    + length (monitors (discovery (this (run bitcoin_backend known_coins
                                           [call_loadAccountInfo "xpub" None bitcoin;
                                            engine_finish 0 "snapshot";
                                            resume_loadAccountInfo 0;
                                            call_monitorAccountActivity "xpub" "snapshot"
                                              bitcoin;
                                            caller_dispose_monitor 0]
                                           (mkWorld fresh_blockbook fresh_trace))))).
Proof.
  exact (listeners_grow_with_sessions bitcoin_backend no_url known_coins one_url []
           fresh_blockbook fresh_trace _ eq_refl).
Defined.

Lemma backend_error_tears_down_everything_witness :
  (forall sid s,
     sessions (discovery (this (step bitcoin_backend known_coins (backend_error first_failure)
                                  (run bitcoin_backend known_coins
                                     [call_loadAccountInfo "xpub" None bitcoin;
                                      call_monitorAccountActivity "xpub" "snapshot" bitcoin]
                                     (mkWorld fresh_blockbook fresh_trace))))) !! sid = Some s ->
     ending s <> Pending)
  /\ (forall mid d,
        monitors (discovery (this (step bitcoin_backend known_coins
                                     (backend_error first_failure)
                                     (run bitcoin_backend known_coins
                                        [call_loadAccountInfo "xpub" None bitcoin;
                                         call_monitorAccountActivity "xpub" "snapshot" bitcoin]
                                        (mkWorld fresh_blockbook fresh_trace))))) !! mid
        = Some d ->
        d = true).
Proof.
  exact (backend_error_tears_down_everything bitcoin_backend no_url known_coins one_url []
           fresh_blockbook fresh_trace _ first_failure eq_refl).
Defined.

Lemma gated_methods_fail_with_latest_error_witness :
  (forall xpub data ci,
     loadAccountInfo_start xpub data ci failed_twice = (Err second_failure, failed_twice))
  /\ (forall xpub data ci,
        monitorAccountActivity xpub data ci failed_twice = (Err second_failure, failed_twice))
  /\ (forall id,
        loadTransaction bitcoin_backend id failed_twice = (Err second_failure, failed_twice))
  /\ (forall txs,
        loadTransactions bitcoin_backend txs failed_twice = (Err second_failure, failed_twice))
  /\ loadCurrentHeight bitcoin_backend failed_twice = (Err second_failure, failed_twice)
  /\ (forall txBytes,
        sendTransaction bitcoin_backend txBytes failed_twice
        = (Err second_failure, failed_twice))
  /\ (forall txHex,
        sendTransactionHex bitcoin_backend txHex failed_twice
        = (Err second_failure, failed_twice)).
Proof.
  apply (gated_methods_fail_with_latest_error bitcoin_backend no_url known_coins one_url []
           fresh_blockbook fresh_trace [backend_error first_failure] second_failure
           [call_loadCurrentHeight; engine_finish 0 "snapshot"] failed_twice eq_refl).
  - repeat constructor.
  - reflexivity.
Defined.

Lemma first_terminal_event_decides_witness :
  loadAccountInfo_outcome 0 discovering = None
  /\ loadAccountInfo_outcome 0
       (run bitcoin_backend known_coins
          (engine_finish 0 "snapshot" :: [caller_dispose 0; backend_error first_failure])
          discovering)
     = Some (Ok "snapshot")
  /\ loadAccountInfo_outcome 0
       (run bitcoin_backend known_coins
          (caller_dispose 0 :: [engine_finish 0 "snapshot"; backend_error first_failure])
          discovering)
     = Some (Err (mkError "Interrupted by user")).
Proof.
  split; [|split].
  - exact (proj1 (first_terminal_event_decides bitcoin_backend known_coins 0 discovering
                    "snapshot" [] eq_refl)).
  - exact (proj1 (proj2 (first_terminal_event_decides bitcoin_backend known_coins 0
                           discovering "snapshot"
                           [caller_dispose 0; backend_error first_failure] eq_refl))).
  - exact (proj2 (proj2 (first_terminal_event_decides bitcoin_backend known_coins 0
                           discovering "snapshot"
                           [engine_finish 0 "snapshot"; backend_error first_failure]
                           eq_refl))).
Defined.

Lemma progress_is_relayed_in_order_witness :
  run bitcoin_backend known_coins (map (engine_progress 0) [3; 1; 2]) discovering
  = mkWorld (this discovering)
      (trace discovering ++ map (Caller_progress 0) [3; 1; 2]).
Proof.
  exact (progress_is_relayed_in_order bitcoin_backend known_coins "xpub" None bitcoin fresh 0
           discovering [3; 1; 2] eq_refl).
Defined.

Lemma activity_stream_disposed_on_backend_error_witness :
  monitors (discovery (this monitoring)) !! 0 = Some false
  /\ monitors (discovery (this (run bitcoin_backend known_coins
                                  ([call_loadCurrentHeight]
                                   ++ backend_error first_failure
                                      :: [call_loadCoinInfo None])
                                  monitoring))) !! 0
     = Some true.
Proof.
  exact (activity_stream_disposed_on_backend_error bitcoin_backend known_coins "xpub"
           "snapshot" bitcoin fresh 0 monitoring [call_loadCurrentHeight] first_failure
           [call_loadCoinInfo None] eq_refl).
Defined.

Lemma constructor_succeeds_with_urls_witness :
  exists b,
    constructor failing_backend no_url one_url []
    = (Ok b,
       [] ++ [new_FastXpubWorker; new_BitcoreBlockchain (urls one_url)]
          ++ (if WebAssembly_defined failing_backend then [httpRequest_FastXpubWasm] else [])
          ++ [new_WorkerDiscovery])
    /\ options b = one_url
    /\ error b = None
    /\ endpoints (blockchain b) = urls one_url
    /\ errors (blockchain b) = [setError_bound]
    /\ sessions (discovery b) = []
    /\ monitors (discovery b) = [].
Proof.
  apply (constructor_succeeds_with_urls failing_backend no_url one_url []). discriminate.
Defined.

Lemma loadCoinInfo_writes_only_zcash_witness :
  this (snd (loadCoinInfo unknown_backend known_coins None fresh)) = this fresh.
Proof.
  exact (proj1 (loadCoinInfo_writes_only_zcash unknown_backend known_coins None fresh)
           (mkError "Failed to load coinInfo ff") eq_refl).
Defined.

Lemma loadCoinInfo_propagates_failures_witness :
  loadCoinInfo offline_backend known_coins None fresh = (Err (mkError "connect failed"), fresh)
  /\ loadCoinInfo failing_backend known_coins (Some bitcoin) fresh
     = (Err (mkError "getInfo failed"),
        mkWorld (this fresh) (trace fresh ++ [Socket_send_getInfo]))
  /\ loadCoinInfo no_genesis_backend known_coins None fresh
     = (Err (mkError "no block"),
        mkWorld (this fresh)
          ((trace fresh ++ [Socket_send_getInfo]) ++ [Blockchain_lookupBlockHash 0])).
Proof.
  split; [|split].
  - exact (proj1 (loadCoinInfo_propagates_failures offline_backend known_coins fresh
                    (mkError "connect failed")) None eq_refl).
  - exact (proj1 (proj2 (loadCoinInfo_propagates_failures failing_backend known_coins fresh
                           (mkError "getInfo failed"))) (Some bitcoin) eq_refl eq_refl).
  - exact (proj2 (proj2 (loadCoinInfo_propagates_failures no_genesis_backend known_coins fresh
                           (mkError "no block"))) "getInfo reply" eq_refl eq_refl eq_refl).
Defined.

Lemma loadTransactions_requests_every_id_witness :
  trace (snd (loadTransactions bitcoin_backend ["a"; "missing"; "c"] fresh))
  = trace fresh ++ map Blockchain_lookupTransaction ["a"; "missing"; "c"].
Proof.
  exact (loadTransactions_requests_every_id bitcoin_backend ["a"; "missing"; "c"] fresh
           eq_refl).
Defined.

Lemma loadTransactions_reports_first_rejection_witness :
  exists p,
    p ∈ fst (Array_map (loadTransaction_promise bitcoin_backend) ["a"; "missing"; "c"] fresh)
    /\ outcome p = Err (mkError "tx not found")
    /\ forall q,
         q ∈ fst (Array_map (loadTransaction_promise bitcoin_backend)
                    ["a"; "missing"; "c"] fresh) ->
         is_rejected q -> settledAt p <= settledAt q.
Proof.
  exact (loadTransactions_reports_first_rejection bitcoin_backend ["a"; "missing"; "c"] fresh
           (mkError "tx not found") eq_refl eq_refl).
Defined.

Lemma sendTransaction_request_determines_buffer_witness :
  [Byte.x00; Byte.xff; Byte.x1a] = [Byte.x00; Byte.xff; Byte.x1a].
Proof.
  exact (sendTransaction_request_determines_buffer bitcoin_backend
           [Byte.x00; Byte.xff; Byte.x1a] [Byte.x00; Byte.xff; Byte.x1a] fresh
           eq_refl eq_refl).
Defined.
